(** * Coffee shop backend: shallow embedding of [backend/src/api.py]

    The Flask application of the coffee shop project, modelled as a
    function from a request and the drinks table to a response and the new
    table.  Python exceptions become an explicit error type; the
    [try]/[except] blocks of the handlers become matches on it; the error
    handlers registered with [@app.errorhandler] turn a raised error into a
    JSON envelope. *)

From Stdlib Require Import String List ZArith Bool Lia Sorted Permutation.
Import ListNotations.
Open Scope string_scope.
Open Scope Z_scope.
#[local] Set Warnings "-register-all".

(** ** JSON values, as returned by [request.get_json()]

    Numbers are integers (the floats of JSON are not modelled).  An object
    is the association list of its entries, in insertion order, as a Python
    dict iterates them.  [JNull] is Python's [None]; in particular a request
    for which [request.get_json()] returns [None] has body [JNull]. *)

Inductive json : Type :=
| JNull
| JBool (b : bool)
| JNum (n : Z)
| JStr (s : string)
| JArr (l : list json)
| JObj (kvs : list (string * json)).

Fixpoint assoc (k : string) (kvs : list (string * json)) : option json :=
  match kvs with
  | [] => None
  | (k', v) :: rest => if String.eqb k k' then Some v else assoc k rest
  end.

Definition null {A} (l : list A) : bool :=
  match l with [] => true | _ => false end.

(** Python truthiness: [None], [False], [0], [""], [[]] and [{}] are falsy. *)
Definition truthy (v : json) : bool :=
  match v with
  | JNull => false
  | JBool b => b
  | JNum n => negb (n =? 0)
  | JStr s => negb (String.eqb s "")
  | JArr l => negb (null l)
  | JObj kvs => negb (null kvs)
  end.

(** ** Exceptions *)

Inductive exn : Type :=
| HTTPError (code : Z) (description : option string)
    (** raised by [abort(code, description)] (a werkzeug [HTTPException]);
        [None] when [abort] gets no description *)
| PyError
    (** a [TypeError], [AttributeError] or [KeyError] of the handler code *)
| IntegrityError
    (** [sqlalchemy.exc.IntegrityError]: a unique constraint was violated *)
| DBError.
    (** any other failure of the database layer *)

Definition Exc (A : Type) : Type := sum exn A.

Definition ret {A} (a : A) : Exc A := inr a.
Definition raise {A} (e : exn) : Exc A := inl e.
Definition abort {A} (code : Z) (d : option string) : Exc A :=
  inl (HTTPError code d).
Definition bind {A B} (m : Exc A) (f : A -> Exc B) : Exc B :=
  match m with inl e => inl e | inr a => f a end.

Notation "x <- m ;; k" := (bind m (fun x => k))
  (at level 61, m at next level, right associativity).

(** [if cond: <raise e>] *)
Definition when (cond : bool) (e : exn) : Exc unit :=
  if cond then inl e else inr tt.

(** ** Python operations on a JSON body *)

Definition is_str (field : string) (e : json) : bool :=
  match e with JStr s => String.eqb s field | _ => false end.

(** [field in x] *)
Definition py_contains (x : json) (field : string) : Exc bool :=
  match x with
  | JObj kvs => ret (match assoc field kvs with Some _ => true | None => false end)
  | JArr l => ret (existsb (is_str field) l)
  | JStr s => ret (match String.index 0 field s with Some _ => true | None => false end)
  | JNull | JBool _ | JNum _ => raise PyError   (* TypeError: not iterable *)
  end.

(** [x.get(field)]: only a dict has [get] *)
Definition py_get (x : json) (field : string) : Exc json :=
  match x with
  | JObj kvs => ret (match assoc field kvs with Some v => v | None => JNull end)
  | _ => raise PyError   (* AttributeError *)
  end.

(** [x[field]] *)
Definition py_getitem (x : json) (field : string) : Exc json :=
  match x with
  | JObj kvs => match assoc field kvs with Some v => ret v | None => raise PyError end
  | _ => raise PyError   (* TypeError: indices must be integers / not subscriptable *)
  end.

(** [x.items()] *)
Definition py_items (x : json) : Exc (list (string * json)) :=
  match x with
  | JObj kvs => ret kvs
  | _ => raise PyError   (* AttributeError *)
  end.

Fixpoint chars (s : string) : list json :=
  match s with
  | EmptyString => []
  | String c rest => JStr (String c EmptyString) :: chars rest
  end.

Definition hashable (e : json) : bool :=
  match e with JArr _ | JObj _ => false | _ => true end.

(** The elements [set.difference(x)] iterates over, each hashed. *)
Definition py_iter_hashed (x : json) : Exc (list json) :=
  match x with
  | JObj kvs => ret (map (fun kv => JStr (fst kv)) kvs)
  | JStr s => ret (chars s)
  | JArr l => if forallb hashable l then ret l else raise PyError (* unhashable *)
  | JNull | JBool _ | JNum _ => raise PyError   (* not iterable *)
  end.

(** [required.difference(x)].  A Python set of strings iterates in an order
    fixed by string hashing; the model keeps the order of [required]. *)
Definition set_difference (required : list string) (x : json) : Exc (list string) :=
  elems <- py_iter_hashed x ;;
  ret (filter (fun f => negb (existsb (is_str f) elems)) required).

Definition required_recipe_fields : list string := ["name"; "color"; "parts"].

(** [for k, v in recipe.items(): if not v: abort(400, ...)] *)
Fixpoint check_recipe_values (kvs : list (string * json)) : Exc unit :=
  match kvs with
  | [] => ret tt
  | (k, v) :: rest =>
      _ <- when (negb (truthy v))
             (HTTPError 400 (Some ("Missing required recipe field: " ++ k))) ;;
      check_recipe_values rest
  end.

(** The "long format" check shared by [create_drink] and [update_drink]. *)
Definition check_recipe (recipe : json) : Exc unit :=
  missing <- set_difference required_recipe_fields recipe ;;
  _ <- when (negb (null missing))
         (HTTPError 400 (Some ("Missing required recipe field(s): "
                               ++ String.concat ", " missing))) ;;
  its <- py_items recipe ;;
  check_recipe_values its.

(** ** The drinks table

    A row of the [drink] table; [recipe] holds the JSON text written by
    [json.dumps], kept here as the value it encodes ([json.loads] of
    [json.dumps v] is [v]).  [next_id] is the id the database assigns to the
    next inserted row. *)

Record drink : Type := mkDrink {
  id : Z;
  title : string;
  recipe : json
}.

Record store : Type := mkStore {
  rows : list drink;
  next_id : Z
}.

(** [Drink.query.filter(Drink.id == drink_id).one_or_none()] *)
Definition find_drink (st : store) (drink_id : Z) : option drink :=
  find (fun d => id d =? drink_id) (rows st).

(** Modelled from the spec: [Drink.insert] of [database/models.py] (not in
    the sources).  The [title] column is a unique string column: a title
    already stored raises [IntegrityError] (the spec's ConflictError); a
    title that is not a string cannot be written ([DBError], the spec's
    StorageError); otherwise the row is added with a fresh id. *)
Definition insert (st : store) (t : json) (r : json) : Exc (drink * store) :=
  match t with
  | JStr s =>
      if existsb (fun d => String.eqb (title d) s) (rows st) then raise IntegrityError
      else let d := mkDrink (next_id st) s r in
           ret (d, mkStore (rows st ++ [d]) (next_id st + 1))
  | _ => raise DBError
  end.

(** Modelled from the spec: [Drink.update] of [database/models.py] (not in
    the sources): commits the new title [t] and recipe [r] of row [d].  Only
    a changed title is written, and it must not be the title of another
    row. *)
Definition update_row (st : store) (d : drink) (t : json) (r : json) : Exc (drink * store) :=
  match t with
  | JStr s =>
      if negb (String.eqb s (title d))
         && existsb (fun e => negb (id e =? id d) && String.eqb (title e) s) (rows st)
      then raise IntegrityError
      else let d' := mkDrink (id d) s r in
           ret (d', mkStore (map (fun e => if id e =? id d then d' else e) (rows st))
                            (next_id st))
  | _ => raise DBError
  end.

(** Modelled from the spec: [Drink.delete] of [database/models.py]. *)
Definition delete_row (st : store) (drink_id : Z) : store :=
  mkStore (filter (fun e => negb (id e =? drink_id)) (rows st)) (next_id st).

(** [Drink.long()] (models.py, not in the sources): [{id, title, recipe}] with
    the recipe deserialized. *)
Definition long (d : drink) : json :=
  JObj [("id", JNum (id d)); ("title", JStr (title d)); ("recipe", recipe d)].

(** Modelled from the spec: [Drink.short()] of [database/models.py]: every
    ingredient shown as [{name, color, parts: "pending"}]; a recipe that is
    not a list of ingredient objects makes it raise. *)
Definition short_ingredient (i : json) : Exc json :=
  n <- py_getitem i "name" ;;
  c <- py_getitem i "color" ;;
  ret (JObj [("name", n); ("color", c); ("parts", JStr "pending")]).

Fixpoint map_exc {A B} (f : A -> Exc B) (l : list A) : Exc (list B) :=
  match l with
  | [] => ret []
  | x :: rest => y <- f x ;; ys <- map_exc f rest ;; ret (y :: ys)
  end.

Definition short (d : drink) : Exc json :=
  match recipe d with
  | JArr l => r <- map_exc short_ingredient l ;;
              ret (JObj [("id", JNum (id d)); ("title", JStr (title d)); ("recipe", JArr r)])
  | _ => raise PyError
  end.

(** [.order_by(Drink.id)] *)
Fixpoint insert_by_id (d : drink) (l : list drink) : list drink :=
  match l with
  | [] => [d]
  | e :: rest => if id d <=? id e then d :: l else e :: insert_by_id d rest
  end.

Fixpoint order_by_id (l : list drink) : list drink :=
  match l with
  | [] => []
  | d :: rest => insert_by_id d (order_by_id rest)
  end.

(** ** Authorization *)

(** What the [Authorization] header of a request carries. *)
Inductive auth_header : Type :=
| NoAuthHeader
| NotBearer                         (* not of the form "Bearer <token>" *)
| WrongStructure                    (* e.g. more than two parts *)
| BadToken                          (* signature, issuer, audience or expiry check fails *)
| GoodToken (scopes : list string). (* verified token with its scope list *)

(** Modelled from the spec: [requires_auth] of [auth/auth.py] (not in the
    sources).  Verification failures raise AuthError 401 (400 for a header of
    the wrong structure); a verified token without [permission] raises
    AuthError 403; otherwise the wrapped handler runs with the decoded
    claims.  An AuthError ends in the error envelope of its status. *)
Definition requires_auth (permission : string) (h : auth_header)
    (f : list string -> store -> Exc json * store) (st : store) : Exc json * store :=
  match h with
  | NoAuthHeader | NotBearer | BadToken => (abort 401 None, st)
  | WrongStructure => (abort 400 None, st)
  | GoodToken scopes =>
      if existsb (String.eqb permission) scopes then f scopes st
      else (abort 403 None, st)
  end.

(** ** Route handlers *)

Definition success_drinks (ds : list json) : json :=
  JObj [("success", JBool true); ("drinks", JArr ds)].

(** [GET /drinks] *)
Definition get_drinks (st : store) : Exc json * store :=
  (drinks <- map_exc short (order_by_id (rows st)) ;;
   _ <- when (Nat.eqb (List.length drinks) 0) (HTTPError 404 None) ;;
   ret (success_drinks drinks), st).

(** [GET /drinks-detail], the body of the decorated function *)
Definition get_drinks_detail (payload : list string) (st : store) : Exc json * store :=
  (let drinks := map long (order_by_id (rows st)) in
   _ <- when (Nat.eqb (List.length drinks) 0) (HTTPError 404 None) ;;
   ret (success_drinks drinks), st).

(** [for field in ['title', 'recipe']: new_data[field] = body.get(field);
    if not new_data[field]: abort(400, ...)] *)
Fixpoint require_fields (body : json) (fields : list string) : Exc (list json) :=
  match fields with
  | [] => ret []
  | field :: rest =>
      v <- py_get body field ;;
      _ <- when (negb (truthy v))
             (HTTPError 400 (Some ("Missing required field: " ++ field))) ;;
      vs <- require_fields body rest ;;
      ret (v :: vs)
  end.

(** The checks of [create_drink] before its [try]: the title and recipe. *)
Definition validate_create (body : json) : Exc (json * json) :=
  vs <- require_fields body ["title"; "recipe"] ;;
  match vs with
  | [t; r] => _ <- check_recipe r ;; ret (t, r)
  | _ => raise PyError
  end.

(** [POST /drinks], the body of the decorated function *)
Definition create_drink (payload : list string) (body : json) (st : store)
    : Exc json * store :=
  match validate_create body with
  | inl e => (inl e, st)
  | inr (t, r) =>
      match insert st t (JArr [r]) with          (* recipe=json.dumps([recipe]) *)
      | inr (d, st') => (ret (success_drinks [long d]), st')
      | inl IntegrityError => (abort 400 (Some "Drink may already exist"), st)
      | inl _ => (abort 422 None, st)             (* except Exception *)
      end
  end.

(** [for field in ['title', 'recipe']:
       if field in body and not body.get(field): abort(400, ...)] *)
Fixpoint check_supplied (body : json) (fields : list string) : Exc unit :=
  match fields with
  | [] => ret tt
  | field :: rest =>
      b <- py_contains body field ;;
      _ <- (if b then v <- py_get body field ;;
                      when (negb (truthy v))
                        (HTTPError 400 (Some ("A value is required for field: " ++ field)))
            else ret tt) ;;
      check_supplied body rest
  end.

(** The checks of [update_drink] before its [try]. *)
Definition validate_update (body : json) : Exc unit :=
  _ <- check_supplied body ["title"; "recipe"] ;;
  b <- py_contains body "recipe" ;;
  if b then r <- py_getitem body "recipe" ;; check_recipe r else ret tt.

(** The [try] block of [update_drink]. *)
Definition update_try (drink_id : Z) (body : json) (st : store) : Exc (drink * store) :=
  d <- (match find_drink st drink_id with
        | None => abort 404 None
        | Some d => ret d
        end) ;;
  ht <- py_contains body "title" ;;
  t <- (if ht then py_getitem body "title" else ret (JStr (title d))) ;;
  hr <- py_contains body "recipe" ;;
  r <- (if hr then py_getitem body "recipe" else ret (recipe d)) ;;
  update_row st d t r.

(** [PATCH /drinks/<drink_id>], the body of the decorated function *)
Definition update_drink (payload : list string) (drink_id : Z) (body : json) (st : store)
    : Exc json * store :=
  match validate_update body with
  | inl e => (inl e, st)
  | inr _ =>
      match update_try drink_id body st with
      | inr (d, st') => (ret (success_drinks [long d]), st')
      | inl _ => (abort 422 None, st)             (* except Exception: abort(422) *)
      end
  end.

(** [DELETE /drinks/<drink_id>], the body of the decorated function *)
Definition delete_drink (payload : list string) (drink_id : Z) (st : store)
    : Exc json * store :=
  match find_drink st drink_id with
  | None => (abort 404 None, st)
  | Some _ =>
      (ret (JObj [("success", JBool true); ("delete", JNum drink_id)]),
       delete_row st drink_id)
  end.

(** ** Error handlers *)

Definition envelope (code : Z) (message : string) : json :=
  JObj [("success", JBool false); ("error", JNum code); ("message", JStr message)].

(** [error.description or default] *)
Definition description_or (d : option string) (default : string) : string :=
  match d with
  | Some s => if String.eqb s "" then default else s
  | None => default
  end.

(** The handlers registered with [@app.errorhandler(code)]. *)
Definition error_handler (code : Z) : option (option string -> json * Z) :=
  if code =? 422 then Some (fun _ => (envelope 422 "unprocessable", 422))
  else if code =? 404 then Some (fun _ => (envelope 404 "resource not found", 404))
  else if code =? 400 then Some (fun d => (envelope 400 (description_or d "bad request"), 400))
  else if code =? 403 then Some (fun d => (envelope 403 (description_or d "forbidden"), 403))
  else if code =? 401 then Some (fun d => (envelope 401 (description_or d "unauthorized"), 401))
  else if code =? 500 then Some (fun _ => (envelope 500 "internal server error", 500))
  else None.

Record response : Type := mkResponse {
  status : Z;
  body : json
}.

(** Flask's handling of the handler's outcome: a return value is sent with
    status 200; an [HTTPException] goes to the handler of its code (werkzeug's
    own error page, here [JNull], when none is registered); any other
    exception becomes an [InternalServerError] and goes to the 500 handler. *)
Definition handle_user_exception (e : exn) : response :=
  let (code, d) := match e with
                   | HTTPError c d => (c, d)
                   | _ => (500, None)
                   end in
  match error_handler code with
  | Some h => let (j, s) := h d in mkResponse s j
  | None => mkResponse code JNull
  end.

Definition finalize (r : Exc json) : response :=
  match r with
  | inr j => mkResponse 200 j
  | inl e => handle_user_exception e
  end.

(** ** The application *)

Inductive request : Type :=
| GET_drinks
| GET_drinks_detail (h : auth_header)
| POST_drinks (h : auth_header) (b : json)
| PATCH_drink (h : auth_header) (drink_id : Z) (b : json)
| DELETE_drink (h : auth_header) (drink_id : Z).

(** The routes registered with [@app.route], each behind its decorators. *)
Definition dispatch (rq : request) (st : store) : Exc json * store :=
  match rq with
  | GET_drinks => get_drinks st
  | GET_drinks_detail h => requires_auth "get:drinks-detail" h get_drinks_detail st
  | POST_drinks h b =>
      requires_auth "post:drinks" h (fun p => create_drink p b) st
  | PATCH_drink h i b =>
      requires_auth "patch:drinks" h (fun p => update_drink p i b) st
  | DELETE_drink h i =>
      requires_auth "delete:drinks" h (fun p => delete_drink p i) st
  end.

Definition app (rq : request) (st : store) : response * store :=
  let (r, st') := dispatch rq st in (finalize r, st').

(** ** Tests *)

Definition empty_store : store := mkStore [] 1.

Definition mocha : json :=
  JObj [("name", JStr "mocha"); ("color", JStr "brown"); ("parts", JNum 1)].

Definition post_mocha : json := JObj [("title", JStr "Mocha"); ("recipe", mocha)].

Definition one_drink : store := snd (app (POST_drinks (GoodToken ["post:drinks"]) post_mocha) empty_store).

Example test_post :
  app (POST_drinks (GoodToken ["post:drinks"]) post_mocha) empty_store
  = (mkResponse 200 (success_drinks [JObj [("id", JNum 1); ("title", JStr "Mocha");
                                           ("recipe", JArr [mocha])]]),
     mkStore [mkDrink 1 "Mocha" (JArr [mocha])] 2).
Proof. reflexivity. Qed.

Example test_get_empty :
  fst (app GET_drinks empty_store) = mkResponse 404 (envelope 404 "resource not found").
Proof. reflexivity. Qed.

Example test_get_one :
  status (fst (app GET_drinks one_drink)) = 200.
Proof. reflexivity. Qed.

Example test_patch_missing :
  fst (app (PATCH_drink (GoodToken ["patch:drinks"]) 7 (JObj [])) one_drink)
  = mkResponse 422 (envelope 422 "unprocessable").
Proof. reflexivity. Qed.

Example test_post_parts_zero :
  fst (app (POST_drinks (GoodToken ["post:drinks"])
              (JObj [("title", JStr "X"); ("recipe", JObj [("name", JStr "a");
                      ("color", JStr "b"); ("parts", JNum 0)])])) empty_store)
  = mkResponse 400 (envelope 400 "Missing required recipe field: parts").
Proof. reflexivity. Qed.

(** ** General lemmas *)

Definition authorizes (permission : string) (scopes : list string) : bool :=
  existsb (String.eqb permission) scopes.

Definition registered (c : Z) : Prop := In c [400; 401; 403; 404; 422; 500].

(** The HTTP errors [m] can raise all have a code satisfying [P]. *)
Definition codes_in {A} (P : Z -> Prop) (m : Exc A) : Prop :=
  forall c d, m = inl (HTTPError c d) -> P c.

Lemma codes_in_ret {A} (P : Z -> Prop) (a : A) : codes_in P (ret a).
Proof. intros c d H; discriminate. Qed.

Lemma codes_in_raise_nonhttp {A} (P : Z -> Prop) (e : exn) :
  (forall c d, e <> HTTPError c d) -> codes_in P (@raise A e).
Proof. intros He c d H; injection H as H; exfalso; eapply He; eauto. Qed.

Lemma codes_in_abort {A} (P : Z -> Prop) c0 d0 : P c0 -> codes_in P (@abort A c0 d0).
Proof. intros Hc c d H; injection H as -> ->; exact Hc. Qed.

Lemma codes_in_when (P : Z -> Prop) b c0 d0 : P c0 -> codes_in P (when b (HTTPError c0 d0)).
Proof. intros Hc c d H; destruct b; simpl in H; [injection H as -> ->; exact Hc | discriminate]. Qed.

Lemma codes_in_bind {A B} (P : Z -> Prop) (m : Exc A) (f : A -> Exc B) :
  codes_in P m -> (forall a, codes_in P (f a)) -> codes_in P (bind m f).
Proof.
  intros Hm Hf c d H; destruct m as [e|a]; simpl in H.
  - injection H as ->; eapply Hm; reflexivity.
  - eapply Hf; exact H.
Qed.

Lemma codes_in_pyerror {A} (P : Z -> Prop) : codes_in P (@raise A PyError).
Proof. apply codes_in_raise_nonhttp; discriminate. Qed.

Create HintDb codes.
#[local] Hint Resolve codes_in_ret codes_in_pyerror codes_in_bind : codes.

Ltac codes_step :=
  match goal with
  | |- codes_in _ (bind _ _) => apply codes_in_bind; [| intro]
  | |- codes_in _ (ret _) => apply codes_in_ret
  | |- codes_in _ (raise PyError) => apply codes_in_pyerror
  | |- codes_in _ (raise _) => apply codes_in_raise_nonhttp; discriminate
  | |- codes_in _ (abort _ _) => apply codes_in_abort
  | |- codes_in _ (when _ _) => apply codes_in_when
  | |- codes_in _ (if ?b then _ else _) => destruct b
  | |- codes_in _ (match ?x with _ => _ end) => destruct x
  end.

Ltac codes_solve := repeat codes_step; simpl; auto.

Lemma py_contains_codes P x f : codes_in P (py_contains x f).
Proof. unfold py_contains; codes_solve. Qed.

Lemma py_get_codes P x f : codes_in P (py_get x f).
Proof. unfold py_get; codes_solve. Qed.

Lemma py_getitem_codes P x f : codes_in P (py_getitem x f).
Proof. unfold py_getitem; codes_solve. Qed.

Lemma check_recipe_values_codes kvs : codes_in (fun c => c = 400) (check_recipe_values kvs).
Proof.
  induction kvs as [|[k v] rest IH]; simpl; codes_solve.
Qed.

Lemma check_recipe_codes r : codes_in (fun c => c = 400) (check_recipe r).
Proof.
  unfold check_recipe, set_difference, py_iter_hashed, py_items.
  codes_solve; apply check_recipe_values_codes.
Qed.

Lemma require_fields_codes b fs : codes_in (fun c => c = 400) (require_fields b fs).
Proof.
  induction fs as [|f rest IH]; simpl; codes_solve; apply py_get_codes.
Qed.

Lemma check_supplied_codes b fs : codes_in (fun c => c = 400) (check_supplied b fs).
Proof.
  induction fs as [|f rest IH]; simpl; codes_solve;
    first [apply py_contains_codes | apply py_get_codes].
Qed.

Lemma validate_create_codes b : codes_in (fun c => c = 400) (validate_create b).
Proof.
  unfold validate_create. apply codes_in_bind; [apply require_fields_codes|].
  intro vs. destruct vs as [|t [|r [|x rest]]]; codes_solve; apply check_recipe_codes.
Qed.

Lemma validate_update_codes b : codes_in (fun c => c = 400) (validate_update b).
Proof.
  unfold validate_update. apply codes_in_bind; [apply check_supplied_codes|]. intros _.
  apply codes_in_bind; [apply py_contains_codes|]. intro hb. destruct hb.
  - apply codes_in_bind; [apply py_getitem_codes|]. intro; apply check_recipe_codes.
  - apply codes_in_ret.
Qed.

Lemma codes_in_weaken {A} (P Q : Z -> Prop) (m : Exc A) :
  (forall c, P c -> Q c) -> codes_in P m -> codes_in Q m.
Proof. intros HPQ Hm c d H; apply HPQ; eapply Hm; eauto. Qed.

Lemma codes_in_inl {A B} (P : Z -> Prop) (e : exn) :
  codes_in P (@inl exn A e) -> codes_in P (@inl exn B e).
Proof. intros H c d Heq; injection Heq as ->; eapply H; reflexivity. Qed.

Lemma finalize_shape (r : Exc json) :
  codes_in registered r ->
  status (finalize r) = 200 \/
  (registered (status (finalize r)) /\
   exists m, body (finalize r) = envelope (status (finalize r)) m).
Proof.
  intros Hr. destruct r as [e|j]; [right | left; reflexivity].
  simpl. unfold handle_user_exception.
  assert (Hc : exists c d, (match e with HTTPError c d => (c, d) | _ => (500, None) end) = (c, d)
                           /\ registered c).
  { destruct e as [c d| | |];
      [exists c, d | exists 500, None | exists 500, None | exists 500, None];
      (split; [reflexivity |]); [eapply Hr; reflexivity | ..];
      unfold registered; simpl; tauto. }
  destruct Hc as (c & d & -> & Hreg).
  unfold registered in Hreg; simpl in Hreg.
  destruct Hreg as [<-|[<-|[<-|[<-|[<-|[<-|[]]]]]]]; simpl;
    (split; [unfold registered; simpl; tauto | eexists; reflexivity]).
Qed.

Lemma map_exc_codes {A B} (P : Z -> Prop) (f : A -> Exc B) l :
  (forall x, codes_in P (f x)) -> codes_in P (map_exc f l).
Proof.
  intros Hf; induction l as [|x rest IH]; simpl; codes_solve.
Qed.

Lemma short_codes P d : codes_in P (short d).
Proof.
  unfold short, short_ingredient. destruct (recipe d); codes_solve.
  apply map_exc_codes; intro x; codes_solve; apply py_getitem_codes.
Qed.

Ltac reg := unfold registered; simpl; tauto.

Lemma requires_auth_codes perm h f st :
  (forall p st', codes_in registered (fst (f p st'))) ->
  codes_in registered (fst (requires_auth perm h f st)).
Proof.
  intros Hf; destruct h; simpl; try (apply codes_in_abort; reg).
  destruct (existsb _ _); [apply Hf | apply codes_in_abort; reg].
Qed.

Lemma dispatch_codes rq st : codes_in registered (fst (dispatch rq st)).
Proof.
  destruct rq as [|h|h b|h i b|h i]; simpl.
  - unfold get_drinks; simpl. apply codes_in_bind.
    + apply map_exc_codes; intro; apply short_codes.
    + intro; codes_solve; reg.
  - apply requires_auth_codes; intros p st'; unfold get_drinks_detail; simpl.
    codes_solve; reg.
  - apply requires_auth_codes; intros p st'; unfold create_drink.
    pose proof (validate_create_codes b) as Hv.
    destruct (validate_create b) as [e|[t r]]; simpl.
    + eapply codes_in_weaken; [|eapply codes_in_inl; exact Hv]. intros c ->; reg.
    + destruct (insert st' t (JArr [r])) as [[]|[d st'']]; simpl;
        try (apply codes_in_abort; reg); apply codes_in_ret.
  - apply requires_auth_codes; intros p st'; unfold update_drink.
    pose proof (validate_update_codes b) as Hv.
    destruct (validate_update b) as [e|[]]; simpl.
    + eapply codes_in_weaken; [|eapply codes_in_inl; exact Hv]. intros c ->; reg.
    + destruct (update_try i b st') as [e|[d st'']]; simpl;
        [apply codes_in_abort; reg | apply codes_in_ret].
  - apply requires_auth_codes; intros p st'; unfold delete_drink.
    destruct (find_drink st' i); simpl; [apply codes_in_ret | apply codes_in_abort; reg].
Qed.

(** ** Claims *)

(** C8: every handler registered with [@app.errorhandler] answers with the
    envelope [{success: false, error: <status>, message: <string>}] whose
    [error] field is the HTTP status it returns, and handlers are registered
    exactly for 400, 401, 403, 404, 422 and 500.  Consequently every response
    of the application is either a 200 or such an envelope with one of these
    six statuses. *)
Theorem error_handlers_envelope :
  (forall c, (exists h, error_handler c = Some h) <-> registered c) /\
  (forall c h d, error_handler c = Some h -> exists m, h d = (envelope c m, c)) /\
  (forall rq st,
     let resp := fst (app rq st) in
     status resp = 200 \/
     (registered (status resp) /\ exists m, body resp = envelope (status resp) m)).
Proof.
  split; [|split].
  - intros c; split.
    + intros [h Hh]; unfold error_handler in Hh.
      destruct (Z.eqb_spec c 422); [subst; reg|].
      destruct (Z.eqb_spec c 404); [subst; reg|].
      destruct (Z.eqb_spec c 400); [subst; reg|].
      destruct (Z.eqb_spec c 403); [subst; reg|].
      destruct (Z.eqb_spec c 401); [subst; reg|].
      destruct (Z.eqb_spec c 500); [subst; reg|discriminate].
    + unfold registered; simpl.
      intros [<-|[<-|[<-|[<-|[<-|[<-|[]]]]]]]; eexists; reflexivity.
  - intros c h d Hh; unfold error_handler in Hh.
    destruct (Z.eqb_spec c 422); [subst; injection Hh as <-; eexists; reflexivity|].
    destruct (Z.eqb_spec c 404); [subst; injection Hh as <-; eexists; reflexivity|].
    destruct (Z.eqb_spec c 400); [subst; injection Hh as <-; eexists; reflexivity|].
    destruct (Z.eqb_spec c 403); [subst; injection Hh as <-; eexists; reflexivity|].
    destruct (Z.eqb_spec c 401); [subst; injection Hh as <-; eexists; reflexivity|].
    destruct (Z.eqb_spec c 500); [subst; injection Hh as <-; eexists; reflexivity|discriminate].
  - intros rq st; simpl. unfold app.
    pose proof (dispatch_codes rq st) as Hc.
    destruct (dispatch rq st) as [r st']; simpl in *.
    apply finalize_shape; exact Hc.
Qed.

Lemma requires_auth_granted perm scopes f st :
  authorizes perm scopes = true ->
  requires_auth perm (GoodToken scopes) f st = f scopes st.
Proof. unfold authorizes; intros H; simpl; rewrite H; reflexivity. Qed.

Lemma requires_auth_denied perm scopes f st :
  authorizes perm scopes = false ->
  requires_auth perm (GoodToken scopes) f st = (abort 403 None, st).
Proof. unfold authorizes; intros H; simpl; rewrite H; reflexivity. Qed.

Definition not_found : response := mkResponse 404 (envelope 404 "resource not found").
Definition unprocessable : response := mkResponse 422 (envelope 422 "unprocessable").
Definition internal_error : response := mkResponse 500 (envelope 500 "internal server error").
Definition bad_request (m : string) : response := mkResponse 400 (envelope 400 m).

(** C1 (code bug): a PATCH that passes the guard and the body checks, for an
    id that matches no stored drink, leaves the table unchanged but is
    answered with the 422 envelope: the [abort(404)] raised inside the [try]
    of [update_drink] is caught by its [except Exception] and replaced by
    [abort(422)]. *)
Theorem patch_unknown_id_422 (scopes : list string) (i : Z) (b : json) (st : store)
  (Hauth : authorizes "patch:drinks" scopes = true)
  (Hnone : find_drink st i = None)
  (Hval : validate_update b = inr tt) :
  app (PATCH_drink (GoodToken scopes) i b) st = (unprocessable, st).
Proof.
  unfold app, dispatch. rewrite requires_auth_granted by exact Hauth.
  unfold update_drink. rewrite Hval. unfold update_try. rewrite Hnone. reflexivity.
Qed.

Lemma patch_unknown_id_422_witness :
  authorizes "patch:drinks" ["patch:drinks"] = true /\
  find_drink empty_store 1 = None /\
  validate_update (JObj []) = inr tt /\
  app (PATCH_drink (GoodToken ["patch:drinks"]) 1 (JObj [])) empty_store
  = (unprocessable, empty_store).
Proof.
  split; [reflexivity|]. split; [reflexivity|]. split; [reflexivity|].
  apply (patch_unknown_id_422 ["patch:drinks"] 1 (JObj []) empty_store);
    reflexivity.
Defined.

(** C2 (counterexample): an unauthenticated GET /drinks-detail on an empty
    table is stopped by the guard with a 401, not a 404. *)
Lemma empty_table_detail_unauthenticated_401 :
  rows empty_store = [] /\
  app (GET_drinks_detail NoAuthHeader) empty_store
  = (mkResponse 401 (envelope 401 "unauthorized"), empty_store).
Proof. split; reflexivity. Qed.

(** C2 (amended): when the table holds zero drink rows, GET /drinks answers
    the 404 envelope, and so does every GET /drinks-detail whose token
    carries [get:drinks-detail]; the table is not changed. *)
Theorem empty_table_listing_404 (st : store) (Hempty : rows st = []) :
  app GET_drinks st = (not_found, st) /\
  (forall scopes, authorizes "get:drinks-detail" scopes = true ->
     app (GET_drinks_detail (GoodToken scopes)) st = (not_found, st)).
Proof.
  split.
  - unfold app, dispatch, get_drinks. rewrite Hempty. reflexivity.
  - intros scopes Hauth. unfold app, dispatch.
    rewrite requires_auth_granted by exact Hauth.
    unfold get_drinks_detail. rewrite Hempty. reflexivity.
Qed.

Lemma empty_table_listing_404_witness :
  rows empty_store = [] /\
  app GET_drinks empty_store = (not_found, empty_store) /\
  (forall scopes, authorizes "get:drinks-detail" scopes = true ->
     app (GET_drinks_detail (GoodToken scopes)) empty_store = (not_found, empty_store)).
Proof.
  split; [reflexivity|]. apply (empty_table_listing_404 empty_store). reflexivity.
Defined.

Lemma find_drink_delete_row st i : find_drink (delete_row st i) i = None.
Proof.
  unfold find_drink, delete_row; simpl. induction (rows st) as [|e rest IH]; simpl; auto.
  destruct (Z.eqb_spec (id e) i); simpl; auto.
  apply Z.eqb_neq in n. rewrite n. exact IH.
Qed.

(** C7 (counterexample): an unauthenticated DELETE of an absent id is
    answered 401 by the guard, not 404. *)
Lemma delete_absent_unauthenticated_401 :
  find_drink empty_store 1 = None /\
  app (DELETE_drink NoAuthHeader 1) empty_store
  = (mkResponse 401 (envelope 401 "unauthorized"), empty_store).
Proof. split; reflexivity. Qed.

(** C7 (amended): a DELETE of an absent id never changes the table, and it
    is answered with the 404 envelope when the token carries
    [delete:drinks]; for an existing id and such a token, the rows with that
    id are removed and the body is [{success: true, delete: id}].  After a
    successful DELETE the id is absent, so the same DELETE again is a 404
    no-op. *)
Theorem delete_drink_contract (scopes : list string) (i : Z) (st : store)
  (Hauth : authorizes "delete:drinks" scopes = true) :
  (find_drink st i = None ->
     app (DELETE_drink (GoodToken scopes) i) st = (not_found, st) /\
     forall h, snd (app (DELETE_drink h i) st) = st) /\
  (forall d, find_drink st i = Some d ->
     app (DELETE_drink (GoodToken scopes) i) st
     = (mkResponse 200 (JObj [("success", JBool true); ("delete", JNum i)]),
        delete_row st i) /\
     find_drink (delete_row st i) i = None /\
     app (DELETE_drink (GoodToken scopes) i) (delete_row st i)
     = (not_found, delete_row st i)).
Proof.
  assert (Habsent : forall st', find_drink st' i = None ->
            app (DELETE_drink (GoodToken scopes) i) st' = (not_found, st')).
  { intros st' Hn. unfold app, dispatch. rewrite requires_auth_granted by exact Hauth.
    unfold delete_drink. rewrite Hn. reflexivity. }
  split.
  - intros Hn. split; [apply Habsent; exact Hn|].
    intros h. unfold app, dispatch, requires_auth.
    destruct h; simpl; auto.
    destruct (existsb _ _); simpl; auto. unfold delete_drink; rewrite Hn; reflexivity.
  - intros d Hd. split; [|split].
    + unfold app, dispatch. rewrite requires_auth_granted by exact Hauth.
      unfold delete_drink. rewrite Hd. reflexivity.
    + apply find_drink_delete_row.
    + apply Habsent, find_drink_delete_row.
Qed.

Lemma delete_drink_contract_witness :
  authorizes "delete:drinks" ["delete:drinks"] = true /\
  app (DELETE_drink (GoodToken ["delete:drinks"]) 1) one_drink
  = (mkResponse 200 (JObj [("success", JBool true); ("delete", JNum 1)]),
     delete_row one_drink 1).
Proof.
  split; [reflexivity|].
  destruct (delete_drink_contract ["delete:drinks"] 1 one_drink eq_refl) as [_ H].
  destruct (H (mkDrink 1 "Mocha" (JArr [mocha])) eq_refl) as [H1 _]. exact H1.
Defined.

(** ** Valid create payloads *)

Definition has_key (f : string) (kvs : list (string * json)) : bool :=
  match assoc f kvs with Some _ => true | None => false end.

(** A single ingredient object: a JSON object with the keys [name], [color]
    and [parts], all of whose values are truthy. *)
Definition valid_ingredient (r : json) : bool :=
  match r with
  | JObj kvs => forallb (fun f => has_key f kvs) required_recipe_fields
                && forallb (fun kv => truthy (snd kv)) kvs
  | _ => false
  end.

Lemma has_key_iter f kvs :
  has_key f kvs = true -> existsb (is_str f) (map (fun kv => JStr (fst kv)) kvs) = true.
Proof.
  unfold has_key. induction kvs as [|[k v] rest IH]; simpl; [discriminate|].
  destruct (String.eqb_spec f k) as [->|Hne].
  - intros _. unfold is_str. rewrite String.eqb_refl. reflexivity.
  - intros H. rewrite IH by exact H. apply orb_true_r.
Qed.

Lemma check_recipe_values_ok kvs :
  forallb (fun kv => truthy (snd kv)) kvs = true -> check_recipe_values kvs = inr tt.
Proof.
  induction kvs as [|[k v] rest IH]; simpl; auto.
  intros H. apply andb_prop in H as [Hv Hrest]. rewrite Hv. simpl. apply IH, Hrest.
Qed.

Lemma set_difference_keys kvs :
  forallb (fun f => has_key f kvs) required_recipe_fields = true ->
  set_difference required_recipe_fields (JObj kvs) = inr [].
Proof.
  intros H. unfold required_recipe_fields in *. simpl in H.
  repeat (apply andb_prop in H as [? H]).
  unfold set_difference; simpl. repeat (rewrite has_key_iter by assumption). reflexivity.
Qed.

Lemma check_recipe_ok r : valid_ingredient r = true -> check_recipe r = inr tt.
Proof.
  destruct r as [| | | | |kvs]; simpl; try discriminate.
  intros H. apply andb_prop in H as [Hk Hv].
  unfold check_recipe. rewrite set_difference_keys by exact Hk. simpl.
  apply check_recipe_values_ok, Hv.
Qed.

Definition dict_get (k : string) (kvs : list (string * json)) : json :=
  match assoc k kvs with Some v => v | None => JNull end.

Lemma validate_create_ok kvs r :
  truthy (dict_get "title" kvs) = true ->
  dict_get "recipe" kvs = r -> valid_ingredient r = true ->
  validate_create (JObj kvs) = inr (dict_get "title" kvs, r).
Proof.
  intros Ht Hr Hv. unfold validate_create, dict_get in *; simpl.
  rewrite Ht; simpl. rewrite Hr.
  assert (Hr' : truthy r = true).
  { destruct r as [| | | | |[|kv rest]]; simpl in *; try discriminate; reflexivity. }
  rewrite Hr'; simpl. rewrite check_recipe_ok by exact Hv. reflexivity.
Qed.

Lemma validate_create_inv b t r :
  validate_create b = inr (t, r) ->
  truthy t = true /\
  exists kvs, b = JObj kvs /\ dict_get "title" kvs = t /\ dict_get "recipe" kvs = r /\
              exists rk, r = JObj rk.
Proof.
  unfold validate_create. destruct b as [| | | | |kvs]; simpl; try discriminate.
  destruct (truthy (match assoc "title" kvs with Some v => v | None => JNull end)) eqn:Htt;
    simpl; try discriminate.
  destruct (truthy (match assoc "recipe" kvs with Some v => v | None => JNull end)); simpl;
    try discriminate.
  unfold check_recipe.
  destruct (set_difference required_recipe_fields _) as [e|missing]; simpl; try discriminate.
  destruct (null missing); simpl; try discriminate.
  destruct (match assoc "recipe" kvs with Some v => v | None => JNull end) as
    [| | | | |rk] eqn:Hr; simpl; try discriminate.
  destruct (check_recipe_values rk); simpl; try discriminate.
  intros H; injection H as <- <-. split; [exact Htt|]. exists kvs. unfold dict_get. rewrite Hr.
  repeat split; eauto.
Qed.

(** C3: for a valid create payload (a non-empty string title, and a recipe
    that is a single ingredient object with truthy [name], [color] and
    [parts]), POST /drinks succeeds exactly when the token carries
    [post:drinks] and the title is not stored yet; when it succeeds, the row
    appended to the table has the ingredient wrapped into a one-element list
    as its recipe, and the body is [{success: true, drinks: [d.long()]}],
    whose recipe is that one-element list. *)
Theorem post_valid_payload_wraps_recipe (h : auth_header) (kvs : list (string * json))
  (t : string) (r : json) (st : store) (resp : response) (st' : store)
  (Ht : assoc "title" kvs = Some (JStr t)) (Hne : t <> "")
  (Hr : assoc "recipe" kvs = Some r) (Hv : valid_ingredient r = true)
  (Happ : app (POST_drinks h (JObj kvs)) st = (resp, st')) :
  let d := mkDrink (next_id st) t (JArr [r]) in
  (status resp = 200 <->
     (exists scopes, h = GoodToken scopes /\ authorizes "post:drinks" scopes = true) /\
     existsb (fun e => String.eqb (title e) t) (rows st) = false) /\
  (status resp = 200 ->
     rows st' = (rows st ++ [d])%list /\ body resp = success_drinks [long d] /\
     assoc "recipe" (match long d with JObj f => f | _ => [] end) = Some (JArr [r])).
Proof.
  intros d.
  assert (Hval : validate_create (JObj kvs) = inr (JStr t, r)).
  { replace (JStr t) with (dict_get "title" kvs) by (unfold dict_get; rewrite Ht; reflexivity).
    apply validate_create_ok; auto.
    - unfold dict_get; rewrite Ht; simpl. apply String.eqb_neq in Hne. rewrite Hne. reflexivity.
    - unfold dict_get; rewrite Hr; reflexivity. }
  unfold app, dispatch in Happ.
  destruct h as [| | | |scopes];
    [..| destruct (authorizes "post:drinks" scopes) eqn:Ha];
    [..| rewrite requires_auth_granted in Happ by exact Ha
       | rewrite requires_auth_denied in Happ by exact Ha];
    [..| |injection Happ as <- <-; simpl;
         split; [split; [discriminate | intros [[sc [H Hs]] _]] | discriminate];
         injection H as <-; rewrite Ha in Hs; discriminate];
    try (simpl in Happ; injection Happ as <- <-; simpl;
         split; [split; [discriminate | intros [[sc [H _]] _]; discriminate] | discriminate]).
  unfold create_drink in Happ. rewrite Hval in Happ. unfold insert in Happ.
  destruct (existsb (fun e => String.eqb (title e) t) (rows st)) eqn:Hx;
    simpl in Happ; injection Happ as <- <-; simpl.
  - split; [split; [discriminate | intros [_ H]; discriminate] | discriminate].
  - split; [split; [intros _; split; [eauto | reflexivity] | reflexivity]|].
    intros _. repeat split.
Qed.

Lemma post_valid_payload_wraps_recipe_witness :
  assoc "title" [("title", JStr "Mocha"); ("recipe", mocha)] = Some (JStr "Mocha") /\
  "Mocha" <> "" /\
  assoc "recipe" [("title", JStr "Mocha"); ("recipe", mocha)] = Some mocha /\
  valid_ingredient mocha = true /\
  rows one_drink = (rows empty_store ++ [mkDrink 1 "Mocha" (JArr [mocha])])%list.
Proof.
  split; [reflexivity|]. split; [discriminate|]. split; [reflexivity|].
  split; [reflexivity|].
  destruct (post_valid_payload_wraps_recipe (GoodToken ["post:drinks"])
              [("title", JStr "Mocha"); ("recipe", mocha)] "Mocha" mocha empty_store
              (fst (app (POST_drinks (GoodToken ["post:drinks"]) post_mocha) empty_store))
              one_drink eq_refl ltac:(discriminate) eq_refl eq_refl eq_refl) as [_ H].
  destruct H as [H _]; [reflexivity | exact H].
Defined.

(** ** Duplicate titles *)

Lemma handle_status_200 e :
  status (handle_user_exception e) = 200 -> exists d, e = HTTPError 200 d.
Proof.
  unfold handle_user_exception, error_handler.
  destruct e as [c d| | |]; simpl; try discriminate.
  destruct (c =? 422) eqn:E1; simpl; [discriminate|].
  destruct (c =? 404) eqn:E2; simpl; [discriminate|].
  destruct (c =? 400) eqn:E3; simpl; [discriminate|].
  destruct (c =? 403) eqn:E4; simpl; [discriminate|].
  destruct (c =? 401) eqn:E5; simpl; [discriminate|].
  destruct (c =? 500) eqn:E6; simpl; [discriminate|].
  intros ->; eauto.
Qed.

Lemma check_recipe_values_cases kvs :
  check_recipe_values kvs = inr tt \/
  exists k, check_recipe_values kvs = inl (HTTPError 400 (Some ("Missing required recipe field: " ++ k))).
Proof.
  induction kvs as [|[k v] rest IH]; simpl; auto.
  destruct (truthy v); simpl; eauto.
Qed.

Lemma validate_create_obj_recipe kvs v rk :
  truthy v = true -> assoc "title" kvs = Some v -> assoc "recipe" kvs = Some (JObj rk) ->
  validate_create (JObj kvs) = inr (v, JObj rk) \/
  exists m, validate_create (JObj kvs) = inl (HTTPError 400 (Some m)).
Proof.
  intros Hv Ht Hr. unfold validate_create; simpl. rewrite Ht, Hr, Hv. simpl.
  destruct rk as [|kv rest]; [simpl; right; eauto|].
  destruct (check_recipe_values_cases (kv :: rest)) as [Hc|[k Hc]];
    unfold check_recipe, set_difference; cbn -[check_recipe_values];
    destruct (null _); cbn -[check_recipe_values]; try rewrite Hc; simpl; eauto.
Qed.

(** C5 (counterexample): after a successful POST of "Mocha", a second POST
    with the same title is answered 401 when it has no token, and 500 when
    its recipe is the number 5 ([set.difference] raises a [TypeError]); the
    table keeps the first drink in both cases. *)
Lemma duplicate_title_second_not_always_400 :
  status (fst (app (POST_drinks (GoodToken ["post:drinks"]) post_mocha) empty_store)) = 200 /\
  app (POST_drinks NoAuthHeader post_mocha) one_drink
  = (mkResponse 401 (envelope 401 "unauthorized"), one_drink) /\
  app (POST_drinks (GoodToken ["post:drinks"])
         (JObj [("title", JStr "Mocha"); ("recipe", JNum 5)])) one_drink
  = (internal_error, one_drink).
Proof. repeat split; reflexivity. Qed.

(** C5 (amended): if a POST /drinks succeeded, a later POST whose title is
    the same value, whose token carries [post:drinks] and whose recipe is a
    JSON object fails with a 400 envelope and leaves the table as the first
    request left it, the drink created by the first request included. *)
Theorem duplicate_title_second_post_400 (h1 : auth_header) (scopes2 : list string)
  (kvs1 kvs2 : list (string * json)) (v : json) (rk2 : list (string * json))
  (st st1 : store) (resp1 : response)
  (H1 : app (POST_drinks h1 (JObj kvs1)) st = (resp1, st1))
  (Hok : status resp1 = 200)
  (Ht1 : assoc "title" kvs1 = Some v) (Ht2 : assoc "title" kvs2 = Some v)
  (Hr2 : assoc "recipe" kvs2 = Some (JObj rk2))
  (Hauth : authorizes "post:drinks" scopes2 = true) :
  (exists d, In d (rows st1) /\ JStr (title d) = v) /\
  exists m, app (POST_drinks (GoodToken scopes2) (JObj kvs2)) st1 = (bad_request m, st1).
Proof.
  (* what the first request did *)
  assert (Hfirst : truthy v = true /\ exists s d, v = JStr s /\ title d = s /\ In d (rows st1)).
  { unfold app, dispatch in H1.
    destruct h1 as [| | | |scopes1];
      try (simpl in H1; injection H1 as <- <-; discriminate).
    destruct (authorizes "post:drinks" scopes1) eqn:Ha;
      [rewrite requires_auth_granted in H1 by exact Ha
      |rewrite requires_auth_denied in H1 by exact Ha; injection H1 as <- <-; discriminate].
    unfold create_drink in H1.
    pose proof (validate_create_codes (JObj kvs1)) as Hc.
    destruct (validate_create (JObj kvs1)) as [e|[t r]] eqn:Hv.
    - injection H1 as <- <-. simpl in Hok. apply handle_status_200 in Hok as [d ->].
      specialize (Hc 200 d eq_refl). discriminate.
    - apply validate_create_inv in Hv as (Htr & kvs & Hk & Ht & Hr & _).
      injection Hk as <-. unfold dict_get in Ht. rewrite Ht1 in Ht. subst t.
      split; [exact Htr|].
      unfold insert in H1. destruct v as [| | |s| |]; try (injection H1 as <- <-; discriminate).
      destruct (existsb _ _); [injection H1 as <- <-; discriminate|].
      injection H1 as <- <-. exists s, (mkDrink (next_id st) s (JArr [r])).
      split; [reflexivity|]. split; [reflexivity|]. simpl. apply in_or_app. right. left. reflexivity. }
  destruct Hfirst as [Htr (s & d & -> & Hd & Hin)].
  split; [exists d; rewrite Hd; auto|].
  unfold app, dispatch. rewrite requires_auth_granted by exact Hauth. unfold create_drink.
  destruct (validate_create_obj_recipe kvs2 (JStr s) rk2 Htr Ht2 Hr2) as [-> | [m ->]].
  - unfold insert.
    assert (Hx : existsb (fun e => String.eqb (title e) s) (rows st1) = true).
    { apply existsb_exists. exists d. split; [exact Hin|]. rewrite Hd. apply String.eqb_refl. }
    rewrite Hx. simpl. eexists. reflexivity.
  - simpl. eexists. reflexivity.
Qed.

Lemma duplicate_title_second_post_400_witness :
  status (fst (app (POST_drinks (GoodToken ["post:drinks"]) post_mocha) empty_store)) = 200 /\
  exists m, app (POST_drinks (GoodToken ["post:drinks"]) post_mocha) one_drink
            = (bad_request m, one_drink).
Proof.
  split; [reflexivity|].
  exact (proj2 (duplicate_title_second_post_400 (GoodToken ["post:drinks"]) ["post:drinks"]
              [("title", JStr "Mocha"); ("recipe", mocha)]
              [("title", JStr "Mocha"); ("recipe", mocha)]
              (JStr "Mocha") [("name", JStr "mocha"); ("color", JStr "brown"); ("parts", JNum 1)]
              empty_store one_drink
              (fst (app (POST_drinks (GoodToken ["post:drinks"]) post_mocha) empty_store))
              eq_refl eq_refl eq_refl eq_refl eq_refl eq_refl)).
Defined.

(** ** PATCH *)

(** The value the body supplies for [k], if the body is an object that has it. *)
Definition supplied (b : json) (k : string) : option json :=
  match b with JObj kvs => assoc k kvs | _ => None end.

Definition patched (d : drink) (s : string) (b : json) : drink :=
  mkDrink (id d) s (match supplied b "recipe" with Some r => r | None => recipe d end).

Lemma find_drink_id st i d : find_drink st i = Some d -> id d = i /\ In d (rows st).
Proof.
  unfold find_drink. intros H. apply find_some in H as [Hin Hid].
  apply Z.eqb_eq in Hid. auto.
Qed.

Lemma update_try_inv i b st d' st' :
  update_try i b st = inr (d', st') ->
  exists d s, find_drink st i = Some d /\
    match supplied b "title" with Some v => v | None => JStr (title d) end = JStr s /\
    d' = patched d s b /\
    rows st' = map (fun e => if id e =? id d then d' else e) (rows st) /\
    next_id st' = next_id st.
Proof.
  unfold update_try. destruct (find_drink st i) as [d|] eqn:Hd; simpl; [|discriminate].
  intros H. exists d.
  assert (Hrow : forall t r, update_row st d t r = inr (d', st') ->
            exists s, t = JStr s /\ d' = mkDrink (id d) s r /\
              rows st' = map (fun e => if id e =? id d then d' else e) (rows st) /\
              next_id st' = next_id st).
  { intros t r Hu. unfold update_row in Hu. destruct t as [| | |s| |]; try discriminate.
    destruct (_ && _); [discriminate|]. injection Hu as <- <-. exists s. auto. }
  destruct b as [| | |str|l|kvs]; cbn -[update_row] in H; try discriminate.
  - destruct (String.index 0 "title" str); cbn -[update_row] in H; [discriminate|].
    destruct (String.index 0 "recipe" str); cbn -[update_row] in H; [discriminate|].
    apply Hrow in H as (s & Hs & -> & Hrows & Hn). exists s. unfold patched; simpl; auto.
  - destruct (existsb (is_str "title") l); cbn -[update_row] in H; [discriminate|].
    destruct (existsb (is_str "recipe") l); cbn -[update_row] in H; [discriminate|].
    apply Hrow in H as (s & Hs & -> & Hrows & Hn). exists s. unfold patched; simpl; auto.
  - destruct (assoc "title" kvs) as [tv|] eqn:Ht; cbn -[update_row] in H;
      destruct (assoc "recipe" kvs) as [rv|] eqn:Hr; cbn -[update_row] in H;
      apply Hrow in H as (s & Hs & -> & Hrows & Hn); exists s;
      unfold patched, supplied; rewrite ?Ht, ?Hr; simpl; auto.
Qed.

(** The outcome of a PATCH: it either succeeds through the guard, the body
    checks and the [try] block, or it changes nothing. *)
Lemma patch_cases h i b st resp st' :
  app (PATCH_drink h i b) st = (resp, st') ->
  (status resp = 200 /\
   exists scopes d', h = GoodToken scopes /\ authorizes "patch:drinks" scopes = true /\
     validate_update b = inr tt /\ update_try i b st = inr (d', st') /\
     body resp = success_drinks [long d']) \/
  (status resp <> 200 /\ st' = st).
Proof.
  unfold app, dispatch. intros Happ.
  destruct h as [| | | |scopes];
    try (simpl in Happ; injection Happ as <- <-; right; split; [discriminate | reflexivity]).
  destruct (authorizes "patch:drinks" scopes) eqn:Ha;
    [rewrite requires_auth_granted in Happ by exact Ha
    |rewrite requires_auth_denied in Happ by exact Ha; injection Happ as <- <-;
     right; split; [discriminate | reflexivity]].
  unfold update_drink in Happ.
  pose proof (validate_update_codes b) as Hc.
  destruct (validate_update b) as [e|[]] eqn:Hv.
  - injection Happ as <- <-. right. split; [|reflexivity]. simpl.
    intros H200. apply handle_status_200 in H200 as [d ->].
    specialize (Hc 200 d eq_refl). discriminate.
  - destruct (update_try i b st) as [e|[d' st'']] eqn:Hu.
    + injection Happ as <- <-. right. split; [discriminate | reflexivity].
    + injection Happ as <- <-. left. split; [reflexivity|]. exists scopes, d'. auto.
Qed.

Lemma find_map_replaced (l : list drink) (i : Z) (d' : drink) :
  id d' = i -> (exists e, In e l /\ id e = i) ->
  find (fun e => id e =? i) (map (fun e => if id e =? i then d' else e) l) = Some d'.
Proof.
  intros Hid [e [Hin He]]. induction l as [|x rest IH]; [destruct Hin|].
  simpl. destruct (id x =? i) eqn:Hx.
  - simpl. rewrite Hid, Z.eqb_refl. reflexivity.
  - simpl. rewrite Hx. apply IH. destruct Hin as [->|Hin]; [|exact Hin].
    rewrite He, Z.eqb_refl in Hx. discriminate.
Qed.

(** C6 (counterexample): a PATCH without a token supplying an empty title is
    answered 401 by the guard, not 400. *)
Lemma patch_empty_title_unauthenticated_401 :
  app (PATCH_drink NoAuthHeader 1 (JObj [("title", JStr "")])) one_drink
  = (mkResponse 401 (envelope 401 "unauthorized"), one_drink).
Proof. reflexivity. Qed.

(** C6 (amended): a PATCH of an existing drink replaces only the fields the
    body supplies: when it succeeds, the row gets the supplied title (the
    stored one when [title] is omitted) and the supplied recipe (the stored
    one when [recipe] is omitted), and the other rows are untouched; when it
    does not succeed, the table is unchanged; and a supplied empty-string
    title, on a request whose token carries [patch:drinks], is answered
    400 "A value is required for field: title" without any change. *)
Theorem patch_replaces_only_supplied (h : auth_header) (i : Z) (b : json) (st : store)
  (d : drink) (resp : response) (st' : store)
  (Hd : find_drink st i = Some d)
  (Happ : app (PATCH_drink h i b) st = (resp, st')) :
  (status resp = 200 ->
     exists s, match supplied b "title" with Some v => v = JStr s | None => s = title d end /\
       rows st' = map (fun e => if id e =? i then patched d s b else e) (rows st)) /\
  (status resp <> 200 -> st' = st) /\
  (forall scopes, h = GoodToken scopes -> authorizes "patch:drinks" scopes = true ->
     supplied b "title" = Some (JStr "") ->
     resp = bad_request "A value is required for field: title" /\ st' = st).
Proof.
  pose proof (find_drink_id st i d Hd) as [Hid Hin].
  split; [|split].
  - intros H200. apply patch_cases in Happ as [[_ (scopes & d' & _ & _ & _ & Hu & _)] | [Hn _]];
      [|contradiction].
    apply update_try_inv in Hu as (d0 & s & Hd0 & Hs & -> & Hrows & _).
    rewrite Hd in Hd0. injection Hd0 as <-. exists s. split.
    + destruct (supplied b "title"); [exact Hs | injection Hs as ->; reflexivity].
    + rewrite Hrows, Hid. reflexivity.
  - intros Hn. apply patch_cases in Happ as [[H200 _] | [_ Hst]]; [contradiction | exact Hst].
  - intros scopes -> Hauth Hs.
    destruct b as [| | | | |kvs]; simpl in Hs; try discriminate.
    unfold app, dispatch in Happ. rewrite requires_auth_granted in Happ by exact Hauth.
    unfold update_drink, validate_update in Happ. simpl in Happ. rewrite Hs in Happ.
    simpl in Happ. injection Happ as <- <-. auto.
Qed.

Lemma patch_replaces_only_supplied_witness :
  find_drink one_drink 1 = Some (mkDrink 1 "Mocha" (JArr [mocha])) /\
  exists s, s = "Latte" /\
    rows (snd (app (PATCH_drink (GoodToken ["patch:drinks"]) 1
                      (JObj [("title", JStr "Latte")])) one_drink))
    = map (fun e => if id e =? 1
                    then patched (mkDrink 1 "Mocha" (JArr [mocha])) s
                           (JObj [("title", JStr "Latte")])
                    else e) (rows one_drink).
Proof.
  split; [reflexivity|].
  destruct (patch_replaces_only_supplied (GoodToken ["patch:drinks"]) 1
              (JObj [("title", JStr "Latte")]) one_drink (mkDrink 1 "Mocha" (JArr [mocha]))
              (fst (app (PATCH_drink (GoodToken ["patch:drinks"]) 1
                           (JObj [("title", JStr "Latte")])) one_drink))
              (snd (app (PATCH_drink (GoodToken ["patch:drinks"]) 1
                           (JObj [("title", JStr "Latte")])) one_drink))
              eq_refl eq_refl) as [H _].
  destruct (H eq_refl) as [s [Hs Hrows]]. simpl in Hs. injection Hs as Hs. subst s.
  exists "Latte". split; [reflexivity | exact Hrows].
Defined.

Lemma check_recipe_obj r : check_recipe r = inr tt -> exists rk, r = JObj rk.
Proof.
  unfold check_recipe. destruct (set_difference required_recipe_fields r); simpl; [discriminate|].
  destruct (null l); simpl; [|discriminate].
  destruct r; simpl; try discriminate. eauto.
Qed.

(** C9: a successful PATCH stores the supplied recipe value as it is (an
    object, since it passed the checks), not wrapped in a list; a successful
    POST stores its recipe wrapped into a one-element list. *)
Theorem patch_stores_recipe_unwrapped :
  (forall h i kvs r st resp st',
     assoc "recipe" kvs = Some r ->
     app (PATCH_drink h i (JObj kvs)) st = (resp, st') -> status resp = 200 ->
     (exists rk, r = JObj rk) /\
     exists d', find_drink st' i = Some d' /\ recipe d' = r /\
                body resp = success_drinks [long d']) /\
  (forall h kvs r st resp st',
     assoc "recipe" kvs = Some r ->
     app (POST_drinks h (JObj kvs)) st = (resp, st') -> status resp = 200 ->
     exists d, rows st' = (rows st ++ [d])%list /\ recipe d = JArr [r] /\
               body resp = success_drinks [long d]).
Proof.
  split.
  - intros h i kvs r st resp st' Hr Happ H200.
    apply patch_cases in Happ as [[_ (scopes & d' & _ & _ & Hv & Hu & Hbody)] | [Hn _]];
      [|contradiction].
    split.
    + unfold validate_update in Hv.
      destruct (check_supplied (JObj kvs) ["title"; "recipe"]); simpl in Hv; [discriminate|].
      rewrite Hr in Hv. simpl in Hv. apply check_recipe_obj in Hv. exact Hv.
    + apply update_try_inv in Hu as (d0 & s & Hd0 & _ & -> & Hrows & _).
      pose proof (find_drink_id st i d0 Hd0) as [Hid Hin].
      exists (patched d0 s (JObj kvs)). split; [|split].
      * unfold find_drink. rewrite Hrows, Hid. apply find_map_replaced; [exact Hid|].
        exists d0; auto.
      * unfold patched; simpl. rewrite Hr. reflexivity.
      * exact Hbody.
  - intros h kvs r st resp st' Hr Happ H200.
    unfold app, dispatch in Happ.
    destruct h as [| | | |scopes];
      try (simpl in Happ; injection Happ as <- <-; discriminate).
    destruct (authorizes "post:drinks" scopes) eqn:Ha;
      [rewrite requires_auth_granted in Happ by exact Ha
      |rewrite requires_auth_denied in Happ by exact Ha; injection Happ as <- <-; discriminate].
    unfold create_drink in Happ.
    pose proof (validate_create_codes (JObj kvs)) as Hc.
    destruct (validate_create (JObj kvs)) as [e|[t r']] eqn:Hv.
    + injection Happ as <- <-. simpl in H200. apply handle_status_200 in H200 as [d ->].
      specialize (Hc 200 d eq_refl). discriminate.
    + apply validate_create_inv in Hv as (_ & kvs' & Hk & _ & Hr' & _).
      injection Hk as <-. unfold dict_get in Hr'. rewrite Hr in Hr'. subst r'.
      unfold insert in Happ. destruct t as [| | |s| |]; try (injection Happ as <- <-; discriminate).
      destruct (existsb _ _); [injection Happ as <- <-; discriminate|].
      injection Happ as <- <-. eexists. split; [reflexivity|]. split; reflexivity.
Qed.

Lemma patch_stores_recipe_unwrapped_witness :
  exists d', find_drink (snd (app (PATCH_drink (GoodToken ["patch:drinks"]) 1
                                  (JObj [("recipe", mocha)])) one_drink)) 1 = Some d' /\
             recipe d' = mocha.
Proof.
  destruct (proj1 patch_stores_recipe_unwrapped (GoodToken ["patch:drinks"]) 1
              [("recipe", mocha)] mocha one_drink
              (fst (app (PATCH_drink (GoodToken ["patch:drinks"]) 1
                           (JObj [("recipe", mocha)])) one_drink))
              (snd (app (PATCH_drink (GoodToken ["patch:drinks"]) 1
                           (JObj [("recipe", mocha)])) one_drink))
              eq_refl eq_refl eq_refl) as [_ [d' [H1 [H2 _]]]].
  exists d'. auto.
Defined.

(** ** Falsy values *)

Lemma check_recipe_values_first pre k v post :
  forallb (fun kv => truthy (snd kv)) pre = true -> truthy v = false ->
  check_recipe_values (pre ++ (k, v) :: post)
  = inl (HTTPError 400 (Some ("Missing required recipe field: " ++ k))).
Proof.
  induction pre as [|[k' v'] rest IH]; simpl.
  - intros _ ->. reflexivity.
  - intros H Hv. apply andb_prop in H as [H1 H2]. rewrite H1. simpl. apply IH; auto.
Qed.

Lemma check_recipe_first pre k v post :
  forallb (fun f => has_key f (pre ++ (k, v) :: post)) required_recipe_fields = true ->
  forallb (fun kv => truthy (snd kv)) pre = true -> truthy v = false ->
  check_recipe (JObj (pre ++ (k, v) :: post))
  = inl (HTTPError 400 (Some ("Missing required recipe field: " ++ k))).
Proof.
  intros Hk Hpre Hv. unfold check_recipe. rewrite set_difference_keys by exact Hk.
  simpl. apply check_recipe_values_first; auto.
Qed.

Lemma app_nonempty {A} (pre post : list A) (x : A) : null (pre ++ x :: post) = false.
Proof. destruct pre; reflexivity. Qed.

(** C4 (counterexample): in an update a supplied falsy value is not treated
    as a missing one.  [{"title": ""}] is rejected with 400, while [{}]
    (title omitted) succeeds; and a recipe whose [parts] is 0 gets a
    different message from one that lacks [parts]. *)
Lemma falsy_not_same_as_missing :
  app (PATCH_drink (GoodToken ["patch:drinks"]) 1 (JObj [("title", JStr "")])) one_drink
  = (bad_request "A value is required for field: title", one_drink) /\
  status (fst (app (PATCH_drink (GoodToken ["patch:drinks"]) 1 (JObj [])) one_drink)) = 200 /\
  fst (app (POST_drinks (GoodToken ["post:drinks"])
              (JObj [("title", JStr "X"); ("recipe", JObj [("name", JStr "a");
                      ("color", JStr "b"); ("parts", JNum 0)])])) empty_store)
  = bad_request "Missing required recipe field: parts" /\
  fst (app (POST_drinks (GoodToken ["post:drinks"])
              (JObj [("title", JStr "X"); ("recipe", JObj [("name", JStr "a");
                      ("color", JStr "b")])])) empty_store)
  = bad_request "Missing required recipe field(s): parts".
Proof. repeat split; reflexivity. Qed.

(** C4 (amended): on a request whose token carries the route's scope,
    - POST /drinks answers a falsy [title] or [recipe] exactly as a missing
      one: 400 "Missing required field: <field>";
    - PATCH /drinks/{id} answers a supplied falsy [title] or [recipe] with
      400 "A value is required for field: <field>", while an omitted one is
      not rejected (a PATCH of an existing drink omitting both succeeds);
    - both answer a recipe object that has [name], [color] and [parts] but
      a falsy value (the first one in its order) with 400 "Missing required
      recipe field: <key>", so [parts = 0] is rejected;
    and none of these rejections changes the table. *)
Theorem falsy_fields_rejected (st : store) :
  (forall scopes kvs, authorizes "post:drinks" scopes = true ->
     truthy (dict_get "title" kvs) = false ->
     app (POST_drinks (GoodToken scopes) (JObj kvs)) st
     = (bad_request "Missing required field: title", st)) /\
  (forall scopes kvs, authorizes "post:drinks" scopes = true ->
     truthy (dict_get "title" kvs) = true -> truthy (dict_get "recipe" kvs) = false ->
     app (POST_drinks (GoodToken scopes) (JObj kvs)) st
     = (bad_request "Missing required field: recipe", st)) /\
  (forall scopes kvs pre k v post, authorizes "post:drinks" scopes = true ->
     truthy (dict_get "title" kvs) = true ->
     assoc "recipe" kvs = Some (JObj (pre ++ (k, v) :: post)) ->
     forallb (fun f => has_key f (pre ++ (k, v) :: post)) required_recipe_fields = true ->
     forallb (fun kv => truthy (snd kv)) pre = true -> truthy v = false ->
     app (POST_drinks (GoodToken scopes) (JObj kvs)) st
     = (bad_request ("Missing required recipe field: " ++ k), st)) /\
  (forall scopes i kvs v, authorizes "patch:drinks" scopes = true ->
     assoc "title" kvs = Some v -> truthy v = false ->
     app (PATCH_drink (GoodToken scopes) i (JObj kvs)) st
     = (bad_request "A value is required for field: title", st)) /\
  (forall scopes i kvs v, authorizes "patch:drinks" scopes = true ->
     (assoc "title" kvs = None \/ truthy (dict_get "title" kvs) = true) ->
     assoc "recipe" kvs = Some v -> truthy v = false ->
     app (PATCH_drink (GoodToken scopes) i (JObj kvs)) st
     = (bad_request "A value is required for field: recipe", st)) /\
  (forall scopes i kvs pre k v post, authorizes "patch:drinks" scopes = true ->
     (assoc "title" kvs = None \/ truthy (dict_get "title" kvs) = true) ->
     assoc "recipe" kvs = Some (JObj (pre ++ (k, v) :: post)) ->
     forallb (fun f => has_key f (pre ++ (k, v) :: post)) required_recipe_fields = true ->
     forallb (fun kv => truthy (snd kv)) pre = true -> truthy v = false ->
     app (PATCH_drink (GoodToken scopes) i (JObj kvs)) st
     = (bad_request ("Missing required recipe field: " ++ k), st)) /\
  (forall scopes i kvs d, authorizes "patch:drinks" scopes = true ->
     assoc "title" kvs = None -> assoc "recipe" kvs = None -> find_drink st i = Some d ->
     status (fst (app (PATCH_drink (GoodToken scopes) i (JObj kvs)) st)) = 200).
Proof.
  unfold dict_get.
  split; [|split; [|split; [|split; [|split; [|split]]]]].
  - intros scopes kvs Ha Ht. unfold app, dispatch. rewrite requires_auth_granted by exact Ha.
    unfold create_drink, validate_create. simpl. rewrite Ht. reflexivity.
  - intros scopes kvs Ha Ht Hr. unfold app, dispatch. rewrite requires_auth_granted by exact Ha.
    unfold create_drink, validate_create. simpl. rewrite Ht. simpl. rewrite Hr. reflexivity.
  - intros scopes kvs pre k v post Ha Ht Hr Hk Hpre Hv.
    unfold app, dispatch. rewrite requires_auth_granted by exact Ha.
    unfold create_drink, validate_create. simpl. rewrite Ht. simpl. rewrite Hr.
    simpl. rewrite app_nonempty. simpl.
    rewrite check_recipe_first by assumption. simpl.
    destruct k; reflexivity.
  - intros scopes i kvs v Ha Ht Hv. unfold app, dispatch. rewrite requires_auth_granted by exact Ha.
    unfold update_drink, validate_update. simpl. rewrite Ht. simpl. rewrite Hv. reflexivity.
  - intros scopes i kvs v Ha Ht Hr Hv. unfold app, dispatch.
    rewrite requires_auth_granted by exact Ha.
    unfold update_drink, validate_update. simpl.
    destruct (assoc "title" kvs) as [tv|] eqn:E;
      [destruct Ht as [Ht|Ht]; [discriminate|rewrite Ht] |]; simpl; rewrite Hr; simpl;
      rewrite Hv; reflexivity.
  - intros scopes i kvs pre k v post Ha Ht Hr Hk Hpre Hv. unfold app, dispatch.
    rewrite requires_auth_granted by exact Ha.
    unfold update_drink, validate_update. simpl.
    destruct (assoc "title" kvs) as [tv|] eqn:E;
      [destruct Ht as [Ht|Ht]; [discriminate|rewrite Ht] |]; simpl; rewrite Hr; simpl;
      rewrite app_nonempty; simpl; rewrite check_recipe_first by assumption; simpl;
      destruct k; reflexivity.
  - intros scopes i kvs d Ha Ht Hr Hd. unfold app, dispatch.
    rewrite requires_auth_granted by exact Ha.
    unfold update_drink, validate_update. simpl. rewrite Ht, Hr. simpl.
    unfold update_try. rewrite Hd. simpl. rewrite Ht, Hr. simpl.
    unfold update_row. rewrite String.eqb_refl. reflexivity.
Qed.

Lemma falsy_fields_rejected_witness :
  authorizes "patch:drinks" ["patch:drinks"] = true /\
  assoc "title" [("title", JStr "")] = Some (JStr "") /\
  truthy (JStr "") = false /\
  app (PATCH_drink (GoodToken ["patch:drinks"]) 1 (JObj [("title", JStr "")])) one_drink
  = (bad_request "A value is required for field: title", one_drink).
Proof.
  split; [reflexivity|]. split; [reflexivity|]. split; [reflexivity|].
  exact (proj1 (proj2 (proj2 (proj2 (falsy_fields_rejected one_drink))))
           ["patch:drinks"] 1 [("title", JStr "")] (JStr "") eq_refl eq_refl eq_refl).
Defined.

(** ** Bodies that are not objects *)

(** C10 (counterexample): a PATCH whose JSON body is the array [[]] is not
    answered 500: no key is [in] an empty list, so the update goes through
    and succeeds with 200. *)
Lemma patch_array_body_succeeds :
  fst (app (PATCH_drink (GoodToken ["patch:drinks"]) 1 (JArr [])) one_drink)
  = mkResponse 200 (success_drinks [long (mkDrink 1 "Mocha" (JArr [mocha]))]).
Proof. reflexivity. Qed.

(** C10 (amended): when [request.get_json()] returns [None], a POST /drinks
    or PATCH /drinks/{id} whose token carries the route's scope raises an
    unhandled error on the [None] body ([body.get] or [field in body])
    before any change to the table, and is answered with the 500
    envelope, not a 400. *)
Theorem none_body_internal_error :
  (forall scopes st, authorizes "post:drinks" scopes = true ->
     app (POST_drinks (GoodToken scopes) JNull) st = (internal_error, st)) /\
  (forall scopes i st, authorizes "patch:drinks" scopes = true ->
     app (PATCH_drink (GoodToken scopes) i JNull) st = (internal_error, st)).
Proof.
  split.
  - intros scopes st Ha. unfold app, dispatch. rewrite requires_auth_granted by exact Ha.
    reflexivity.
  - intros scopes i st Ha. unfold app, dispatch. rewrite requires_auth_granted by exact Ha.
    reflexivity.
Qed.

Lemma none_body_internal_error_witness :
  authorizes "post:drinks" ["post:drinks"] = true /\
  app (POST_drinks (GoodToken ["post:drinks"]) JNull) one_drink = (internal_error, one_drink) /\
  app (PATCH_drink (GoodToken ["patch:drinks"]) 1 JNull) one_drink = (internal_error, one_drink).
Proof.
  split; [reflexivity|]. split.
  - exact (proj1 none_body_internal_error ["post:drinks"] one_drink eq_refl).
  - exact (proj2 none_body_internal_error ["patch:drinks"] 1 one_drink eq_refl).
Defined.

Lemma error_handlers_envelope_witness :
  error_handler 404 <> None /\
  exists m, fst (app GET_drinks empty_store) = mkResponse 404 (envelope 404 m).
Proof.
  split; [discriminate|].
  destruct (proj2 (proj2 error_handlers_envelope) GET_drinks empty_store) as [H | [_ [m Hm]]].
  - discriminate H.
  - exists m.
    change (fst (app GET_drinks empty_store))
      with (mkResponse (status (fst (app GET_drinks empty_store)))
                       (body (fst (app GET_drinks empty_store)))).
    rewrite Hm. reflexivity.
Defined.

(** * Further properties of the handlers *)

(** ** Listing order *)

Definition id_le (a b : drink) : Prop := id a <= id b.

Lemma insert_by_id_perm d l : Permutation (insert_by_id d l) (d :: l).
Proof.
  induction l as [|e rest IH]; simpl; [reflexivity|].
  destruct (id d <=? id e); [reflexivity|].
  rewrite IH. apply perm_swap.
Qed.

Lemma insert_by_id_hdrel e d l :
  id e <= id d -> HdRel id_le e l -> HdRel id_le e (insert_by_id d l).
Proof.
  intros Hed Hl. destruct l as [|x rest]; simpl; [constructor; exact Hed|].
  destruct (id d <=? id x); constructor; [exact Hed|].
  apply HdRel_inv in Hl. exact Hl.
Qed.

Lemma insert_by_id_sorted d l : Sorted id_le l -> Sorted id_le (insert_by_id d l).
Proof.
  induction l as [|e rest IH]; simpl; intros Hs.
  - repeat constructor.
  - destruct (id d <=? id e) eqn:Hle.
    + constructor; [exact Hs|]. constructor. apply Z.leb_le, Hle.
    + apply Sorted_inv in Hs as [Hs Hhd]. constructor; [apply IH, Hs|].
      apply insert_by_id_hdrel; [apply Z.leb_gt in Hle; unfold id_le; lia | exact Hhd].
Qed.

Lemma order_by_id_spec l : Permutation (order_by_id l) l /\ Sorted id_le (order_by_id l).
Proof.
  induction l as [|d rest [Hp Hs]]; simpl; [split; constructor|].
  split.
  - rewrite insert_by_id_perm. apply perm_skip, Hp.
  - apply insert_by_id_sorted, Hs.
Qed.

(** X1: an authorized GET /drinks-detail on a non-empty table answers 200
    with [{success: true, drinks}] where [drinks] is the long form of a
    reordering of the stored rows, every stored row exactly once, in
    ascending id order. *)
Theorem drinks_detail_lists_rows_by_id (scopes : list string) (st : store)
  (Hauth : authorizes "get:drinks-detail" scopes = true) (Hne : rows st <> []) :
  exists ordered,
    app (GET_drinks_detail (GoodToken scopes)) st
    = (mkResponse 200 (success_drinks (map long ordered)), st) /\
    Permutation ordered (rows st) /\ Sorted id_le ordered.
Proof.
  exists (order_by_id (rows st)).
  destruct (order_by_id_spec (rows st)) as [Hp Hs].
  split; [|split; assumption].
  unfold app, dispatch. rewrite requires_auth_granted by exact Hauth.
  unfold get_drinks_detail.
  destruct (order_by_id (rows st)) eqn:E.
  - apply Permutation_nil in Hp. contradiction.
  - reflexivity.
Qed.

Lemma drinks_detail_lists_rows_by_id_witness :
  exists ordered,
    app (GET_drinks_detail (GoodToken ["get:drinks-detail"])) one_drink
    = (mkResponse 200 (success_drinks (map long ordered)), one_drink) /\
    Permutation ordered (rows one_drink) /\ Sorted id_le ordered.
Proof.
  apply (drinks_detail_lists_rows_by_id ["get:drinks-detail"] one_drink eq_refl).
  discriminate.
Defined.

(** ** Status codes *)

Lemma handle_status_http c d : status (handle_user_exception (HTTPError c d)) = c.
Proof.
  unfold handle_user_exception, error_handler.
  destruct (Z.eqb_spec c 422); [subst; reflexivity|].
  destruct (Z.eqb_spec c 404); [subst; reflexivity|].
  destruct (Z.eqb_spec c 400); [subst; reflexivity|].
  destruct (Z.eqb_spec c 403); [subst; reflexivity|].
  destruct (Z.eqb_spec c 401); [subst; reflexivity|].
  destruct (Z.eqb_spec c 500); [subst; reflexivity|reflexivity].
Qed.

Lemma finalize_status_in (P : Z -> Prop) (r : Exc json) :
  codes_in P r -> status (finalize r) = 200 \/ status (finalize r) = 500 \/ P (status (finalize r)).
Proof.
  intros Hc. destruct r as [e|j]; simpl; [|auto].
  destruct e as [c d| | |]; try (simpl; auto).
  rewrite handle_status_http. right; right. eapply Hc; reflexivity.
Qed.

Lemma patch_status_in h i b st :
  In (status (fst (app (PATCH_drink h i b) st))) [200; 400; 401; 403; 422; 500].
Proof.
  unfold app. destruct (dispatch (PATCH_drink h i b) st) as [r st'] eqn:E. simpl.
  assert (Hc : codes_in (fun c => In c [400; 401; 403; 422]) r).
  { replace r with (fst (dispatch (PATCH_drink h i b) st)) by (rewrite E; reflexivity).
    simpl. destruct h as [| | | |scopes]; simpl;
      try (apply codes_in_abort; simpl; tauto).
    destruct (existsb _ _); [|apply codes_in_abort; simpl; tauto].
    unfold update_drink. pose proof (validate_update_codes b) as Hv.
    destruct (validate_update b) as [e|[]]; simpl.
    - eapply codes_in_weaken; [|eapply codes_in_inl; exact Hv]. intros c ->; simpl; tauto.
    - destruct (update_try i b st) as [e|[d st'']]; simpl;
        [apply codes_in_abort; simpl; tauto | apply codes_in_ret]. }
  destruct (finalize_status_in _ r Hc) as [-> | [-> | Hs]]; simpl; [tauto | tauto |].
  simpl in Hs. tauto.
Qed.

(** X2: PATCH /drinks/{id} never answers 404.  Its status is always one of
    200, 400, 401, 403, 422 and 500; and once the guard and the body checks
    have passed, every error raised inside its [try] block, the
    [abort(404)] for an unknown id included, is answered with the 422
    envelope and leaves the table unchanged. *)
Theorem patch_never_404 (h : auth_header) (i : Z) (b : json) (st : store) :
  In (status (fst (app (PATCH_drink h i b) st))) [200; 400; 401; 403; 422; 500] /\
  status (fst (app (PATCH_drink h i b) st)) <> 404 /\
  (forall scopes e, h = GoodToken scopes -> authorizes "patch:drinks" scopes = true ->
     validate_update b = inr tt -> update_try i b st = inl e ->
     app (PATCH_drink h i b) st = (unprocessable, st)).
Proof.
  pose proof (patch_status_in h i b st) as Hin.
  split; [exact Hin|]. split.
  - intros H4. rewrite H4 in Hin. simpl in Hin. intuition discriminate.
  - intros scopes e -> Hauth Hv Hu. unfold app, dispatch.
    rewrite requires_auth_granted by exact Hauth. unfold update_drink.
    rewrite Hv, Hu. reflexivity.
Qed.

Lemma patch_never_404_witness :
  app (PATCH_drink (GoodToken ["patch:drinks"]) 7 (JObj [])) one_drink
  = (unprocessable, one_drink).
Proof.
  apply (proj2 (proj2 (patch_never_404 (GoodToken ["patch:drinks"]) 7 (JObj []) one_drink))
           ["patch:drinks"] (HTTPError 404 None)); reflexivity.
Defined.

(** ** Failed requests write nothing *)

(** [p] either succeeded, or failed with the table [st] it started from. *)
Definition clean (st : store) (p : Exc json * store) : Prop :=
  match fst p with inl _ => snd p = st | inr _ => True end.

Lemma requires_auth_clean perm h f st :
  (forall p, clean st (f p st)) -> clean st (requires_auth perm h f st).
Proof.
  intros Hf. destruct h; simpl; try reflexivity.
  destruct (existsb _ _); [apply Hf | reflexivity].
Qed.

Lemma dispatch_clean rq st : clean st (dispatch rq st).
Proof.
  destruct rq as [|h|h b|h i b|h i]; simpl.
  - unfold get_drinks, clean; simpl. destruct (bind _ _); reflexivity.
  - apply requires_auth_clean; intros p. unfold get_drinks_detail, clean; simpl.
    destruct (bind _ _); reflexivity.
  - apply requires_auth_clean; intros p. unfold create_drink, clean.
    destruct (validate_create b) as [e|[t r]]; [reflexivity|].
    destruct (insert st t (JArr [r])) as [[]|[d st']]; simpl; auto.
  - apply requires_auth_clean; intros p. unfold update_drink, clean.
    destruct (validate_update b) as [e|[]]; [reflexivity|].
    destruct (update_try i b st) as [e|[d st']]; simpl; auto.
  - apply requires_auth_clean; intros p. unfold delete_drink, clean.
    destruct (find_drink st i); simpl; auto.
Qed.

(** X3: a request that is not answered 200 leaves the drinks table exactly
    as it was, whatever the route and whatever went wrong (guard, body
    checks, database error or unhandled exception); and the two GET routes
    never change the table. *)
Theorem failed_request_keeps_table (rq : request) (st : store) :
  (status (fst (app rq st)) <> 200 -> snd (app rq st) = st) /\
  snd (app GET_drinks st) = st /\
  (forall h, snd (app (GET_drinks_detail h) st) = st).
Proof.
  split; [|split].
  - unfold app. pose proof (dispatch_clean rq st) as Hc.
    destruct (dispatch rq st) as [r st'] eqn:E. unfold clean in Hc. simpl in *.
    destruct r as [e|j]; [intros _; exact Hc | simpl; congruence].
  - unfold app, dispatch, get_drinks. simpl. reflexivity.
  - intros h. unfold app, dispatch. pose proof (requires_auth_clean "get:drinks-detail" h
      get_drinks_detail st) as Hc.
    destruct h; simpl; try reflexivity. destruct (existsb _ _); reflexivity.
Qed.

Lemma failed_request_keeps_table_witness :
  snd (app (POST_drinks (GoodToken ["post:drinks"]) post_mocha) one_drink) = one_drink.
Proof.
  apply (proj1 (failed_request_keeps_table
                  (POST_drinks (GoodToken ["post:drinks"]) post_mocha) one_drink)).
  discriminate.
Defined.

(** ** What the table holds *)

(** A stored recipe passed [check_recipe]: as the object itself (PATCH) or
    wrapped in a one-element list (POST). *)
Definition recipe_ok (j : json) : Prop :=
  check_recipe j = inr tt \/ exists r, j = JArr [r] /\ check_recipe r = inr tt.

Definition row_ok (d : drink) : Prop := title d <> "" /\ recipe_ok (recipe d).

Lemma requires_auth_pres (P : store -> Prop) perm h f st :
  P st -> (forall p, P (snd (f p st))) -> P (snd (requires_auth perm h f st)).
Proof.
  intros H0 Hf. destruct h; simpl; auto. destruct (existsb _ _); simpl; auto.
Qed.

Lemma truthy_str s : truthy (JStr s) = true -> s <> "".
Proof. simpl. intros H ->. discriminate. Qed.

Lemma validate_create_checked b t r :
  validate_create b = inr (t, r) -> truthy t = true /\ check_recipe r = inr tt.
Proof.
  intros H. split; [apply (validate_create_inv b t r H)|].
  unfold validate_create in H.
  destruct (require_fields b ["title"; "recipe"]) as [e|vs]; cbn -[check_recipe] in H;
    [discriminate|].
  destruct vs as [|t' [|r' [|]]]; cbn -[check_recipe] in H; try discriminate.
  destruct (check_recipe r') as [e|[]] eqn:E; cbn -[check_recipe] in H; [discriminate|].
  injection H as <- <-. exact E.
Qed.

Lemma check_supplied_obj kvs fs :
  check_supplied (JObj kvs) fs = inr tt ->
  forall f v, In f fs -> assoc f kvs = Some v -> truthy v = true.
Proof.
  induction fs as [|f0 rest IH]; simpl; [intros _ f v []|].
  destruct (assoc f0 kvs) as [v0|] eqn:E; simpl.
  - destruct (truthy v0) eqn:Hv0; simpl; [|discriminate].
    intros H f v [<-|Hin] Hf; [congruence|]. eapply IH; eauto.
  - intros H f v [<-|Hin] Hf; [congruence|]. eapply IH; eauto.
Qed.

Lemma validate_update_obj kvs :
  validate_update (JObj kvs) = inr tt ->
  (forall v, assoc "title" kvs = Some v -> truthy v = true) /\
  (forall r, assoc "recipe" kvs = Some r -> check_recipe r = inr tt).
Proof.
  unfold validate_update. destruct (check_supplied (JObj kvs) ["title"; "recipe"]) eqn:Hc;
    cbn -[check_recipe check_supplied]; [discriminate|]. destruct u.
  intros H. split.
  - intros v Hv. eapply check_supplied_obj; [exact Hc | left; reflexivity | exact Hv].
  - intros r Hr. rewrite Hr in H. exact H.
Qed.

Lemma update_try_row_ok i b st d' st' :
  Forall row_ok (rows st) -> validate_update b = inr tt ->
  update_try i b st = inr (d', st') -> Forall row_ok (rows st').
Proof.
  intros Hall Hv Hu. apply update_try_inv in Hu as (d & s & Hd & Hs & -> & Hrows & _).
  apply find_drink_id in Hd as [_ Hin].
  pose proof (proj1 (Forall_forall _ _) Hall d Hin) as [Htd Hrd].
  assert (Hok : row_ok (patched d s b)).
  { unfold patched, row_ok; simpl. split.
    - destruct b as [| | | | |kvs]; simpl in Hs; try (injection Hs as <-; exact Htd).
      destruct (assoc "title" kvs) as [v|] eqn:Ht; [|injection Hs as <-; exact Htd].
      subst v. apply truthy_str. apply (proj1 (validate_update_obj kvs Hv)), Ht.
    - destruct b as [| | | | |kvs]; simpl; try exact Hrd.
      destruct (assoc "recipe" kvs) as [r|] eqn:Hr; [|exact Hrd].
      left. apply (proj2 (validate_update_obj kvs Hv)), Hr. }
  rewrite Hrows. apply Forall_map. eapply Forall_impl; [|exact Hall].
  intros e He. destruct (id e =? id d); auto.
Qed.

Lemma dispatch_row_ok rq st :
  Forall row_ok (rows st) -> Forall row_ok (rows (snd (dispatch rq st))).
Proof.
  intros Hall. destruct rq as [|h|h b|h i b|h i]; simpl.
  - exact Hall.
  - apply (requires_auth_pres (fun s => Forall row_ok (rows s))); auto.
  - apply (requires_auth_pres (fun s => Forall row_ok (rows s))); auto. intros p.
    unfold create_drink. destruct (validate_create b) as [e|[t r]] eqn:Hv; [exact Hall|].
    apply validate_create_checked in Hv as [Ht Hr].
    unfold insert. destruct t as [| | |s| |]; simpl; auto.
    destruct (existsb _ _); simpl; auto.
    apply Forall_app. split; [exact Hall|]. constructor; [|constructor].
    split; simpl; [apply truthy_str, Ht | right; eauto].
  - apply (requires_auth_pres (fun s => Forall row_ok (rows s))); auto. intros p.
    unfold update_drink. destruct (validate_update b) as [e|[]] eqn:Hv; [exact Hall|].
    destruct (update_try i b st) as [e|[d' st']] eqn:Hu; simpl; [exact Hall|].
    eapply update_try_row_ok; eauto.
  - apply (requires_auth_pres (fun s => Forall row_ok (rows s))); auto. intros p.
    unfold delete_drink. destruct (find_drink st i); simpl; [|exact Hall].
    apply Forall_forall. intros x Hx. apply filter_In in Hx as [Hx _].
    exact (proj1 (Forall_forall _ _) Hall x Hx).
Qed.

(** X4: every request keeps this invariant of the table: each stored row has
    a non-empty title, and a recipe that passed the recipe checks of
    [create_drink] or [update_drink] (the ingredient object itself after a
    PATCH, or that object wrapped into a one-element list after a POST). *)
Theorem requests_keep_rows_checked (rq : request) (st : store)
  (Hall : Forall row_ok (rows st)) : Forall row_ok (rows (snd (app rq st))).
Proof.
  unfold app. pose proof (dispatch_row_ok rq st Hall) as H.
  destruct (dispatch rq st) as [r st']. exact H.
Qed.

Lemma requests_keep_rows_checked_witness :
  Forall row_ok (rows (snd (app (PATCH_drink (GoodToken ["patch:drinks"]) 1
                                  (JObj [("recipe", mocha)])) one_drink))).
Proof.
  apply requests_keep_rows_checked.
  constructor; [|constructor]. split; [discriminate|]. right. exists mocha.
  split; reflexivity.
Defined.

(** ** The recipe check *)

Lemma iter_has_key f kvs :
  existsb (is_str f) (map (fun kv => JStr (fst kv)) kvs) = true -> has_key f kvs = true.
Proof.
  unfold has_key. induction kvs as [|[k v] rest IH]; simpl; [discriminate|].
  intros H. apply orb_true_iff in H as [H|H].
  - apply String.eqb_eq in H as ->. rewrite String.eqb_refl. reflexivity.
  - destruct (String.eqb f k); [reflexivity | apply IH, H].
Qed.

Lemma check_recipe_values_truthy kvs :
  check_recipe_values kvs = inr tt -> forallb (fun kv => truthy (snd kv)) kvs = true.
Proof.
  induction kvs as [|[k v] rest IH]; simpl; [reflexivity|].
  destruct (truthy v); simpl; [exact IH | discriminate].
Qed.

(** X5: the recipe check shared by POST and PATCH accepts exactly the single
    ingredient objects: a JSON object that has the keys [name], [color] and
    [parts] and all of whose values (extra keys included) are truthy.  Any
    other value, a list of ingredients included, is rejected (with 400 or a
    raised TypeError/AttributeError). *)
Theorem check_recipe_accepts_exactly (r : json) :
  check_recipe r = inr tt <-> valid_ingredient r = true.
Proof.
  split; [|apply check_recipe_ok].
  intros H. destruct (check_recipe_obj r H) as [rk ->].
  unfold check_recipe, set_difference, required_recipe_fields in H. simpl in H.
  simpl. unfold required_recipe_fields. simpl.
  destruct (existsb (is_str "name") (map (fun kv => JStr (fst kv)) rk)) eqn:E1;
    simpl in H; [|discriminate].
  destruct (existsb (is_str "color") (map (fun kv => JStr (fst kv)) rk)) eqn:E2;
    simpl in H; [|discriminate].
  destruct (existsb (is_str "parts") (map (fun kv => JStr (fst kv)) rk)) eqn:E3;
    simpl in H; [|discriminate].
  rewrite !iter_has_key by assumption. simpl.
  apply check_recipe_values_truthy, H.
Qed.

Lemma check_recipe_accepts_exactly_witness :
  check_recipe mocha = inr tt /\ check_recipe (JArr [mocha]) <> inr tt.
Proof.
  split.
  - apply (proj2 (check_recipe_accepts_exactly mocha)). reflexivity.
  - intros H. apply (proj1 (check_recipe_accepts_exactly (JArr [mocha]))) in H.
    discriminate.
Defined.

(** ** Requests in sequence *)

Lemma dict_get_truthy k kvs : truthy (dict_get k kvs) = true -> assoc k kvs = Some (dict_get k kvs).
Proof. unfold dict_get. destruct (assoc k kvs); simpl; [reflexivity | discriminate]. Qed.

(** The outcome of a successful POST. *)
Lemma post_success h b st resp st' :
  app (POST_drinks h b) st = (resp, st') -> status resp = 200 ->
  exists d r, rows st' = (rows st ++ [d])%list /\ body resp = success_drinks [long d] /\
    supplied b "title" = Some (JStr (title d)) /\ supplied b "recipe" = Some r /\
    recipe d = JArr [r] /\ id d = next_id st.
Proof.
  unfold app, dispatch. intros Happ H200.
  destruct h as [| | | |scopes];
    try (simpl in Happ; injection Happ as <- <-; discriminate).
  destruct (authorizes "post:drinks" scopes) eqn:Ha;
    [rewrite requires_auth_granted in Happ by exact Ha
    |rewrite requires_auth_denied in Happ by exact Ha; injection Happ as <- <-; discriminate].
  unfold create_drink in Happ.
  pose proof (validate_create_codes b) as Hc.
  destruct (validate_create b) as [e|[t r]] eqn:Hv.
  - injection Happ as <- <-. simpl in H200. apply handle_status_200 in H200 as [d ->].
    specialize (Hc 200 d eq_refl). discriminate.
  - apply validate_create_inv in Hv as (Ht & kvs & -> & Htk & Hrk & rk & Hrobj).
    assert (Hr : assoc "recipe" kvs = Some r).
    { rewrite Hrobj in Hrk |- *. unfold dict_get in Hrk.
      destruct (assoc "recipe" kvs); [rewrite Hrk; reflexivity | discriminate]. }
    unfold insert in Happ. destruct t as [| | |s| |]; try (injection Happ as <- <-; discriminate).
    destruct (existsb _ _); [injection Happ as <- <-; discriminate|].
    injection Happ as <- <-. eexists _, r. repeat split; simpl; auto.
    rewrite <- Htk. apply dict_get_truthy. rewrite Htk. exact Ht.
Qed.

Lemma detail_listing scopes st :
  authorizes "get:drinks-detail" scopes = true -> rows st <> [] ->
  app (GET_drinks_detail (GoodToken scopes)) st
  = (mkResponse 200 (success_drinks (map long (order_by_id (rows st)))), st).
Proof.
  intros Hauth Hne. unfold app, dispatch. rewrite requires_auth_granted by exact Hauth.
  unfold get_drinks_detail. destruct (order_by_id_spec (rows st)) as [Hp _].
  destruct (order_by_id (rows st)) eqn:E.
  - apply Permutation_nil in Hp. contradiction.
  - reflexivity.
Qed.

(** X6: round trip.  After a successful POST /drinks, an authorized GET
    /drinks-detail answers 200, and its list contains the drink the POST
    answered with: the submitted title, and the submitted recipe wrapped into
    a one-element list. *)
Theorem post_then_detail_lists_it (h : auth_header) (b : json) (st : store)
  (resp : response) (st' : store) (scopes : list string)
  (Hpost : app (POST_drinks h b) st = (resp, st')) (H200 : status resp = 200)
  (Hauth : authorizes "get:drinks-detail" scopes = true) :
  exists d,
    body resp = success_drinks [long d] /\
    supplied b "title" = Some (JStr (title d)) /\
    (exists r, supplied b "recipe" = Some r /\ recipe d = JArr [r]) /\
    exists ds, app (GET_drinks_detail (GoodToken scopes)) st'
               = (mkResponse 200 (success_drinks ds), st') /\ In (long d) ds.
Proof.
  destruct (post_success h b st resp st' Hpost H200)
    as (d & r & Hrows & Hbody & Ht & Hr & Hrec & _).
  exists d. split; [exact Hbody|]. split; [exact Ht|]. split; [eauto|].
  assert (Hin : In d (rows st')) by (rewrite Hrows; apply in_or_app; right; left; reflexivity).
  exists (map long (order_by_id (rows st'))). split.
  - apply detail_listing; [exact Hauth|]. intros E. rewrite E in Hin. destruct Hin.
  - apply in_map. destruct (order_by_id_spec (rows st')) as [Hp _].
    apply (Permutation_in d (Permutation_sym Hp) Hin).
Qed.

Lemma post_then_detail_lists_it_witness :
  exists d,
    body (fst (app (POST_drinks (GoodToken ["post:drinks"]) post_mocha) empty_store))
    = success_drinks [long d] /\
    supplied post_mocha "title" = Some (JStr (title d)) /\
    (exists r, supplied post_mocha "recipe" = Some r /\ recipe d = JArr [r]) /\
    exists ds, app (GET_drinks_detail (GoodToken ["get:drinks-detail"])) one_drink
               = (mkResponse 200 (success_drinks ds), one_drink) /\ In (long d) ds.
Proof.
  apply (post_then_detail_lists_it (GoodToken ["post:drinks"]) post_mocha empty_store
           (fst (app (POST_drinks (GoodToken ["post:drinks"]) post_mocha) empty_store))
           one_drink ["get:drinks-detail"]); reflexivity.
Defined.

Lemma map_exc_fails {A B} (f : A -> Exc B) (l : list A) (x : A) (e : exn) :
  In x l -> f x = inl e -> exists e', map_exc f l = inl e'.
Proof.
  induction l as [|y rest IH]; simpl; [intros []|].
  intros Hin Hx. destruct (f y) as [e0|z] eqn:Hy; simpl; [eauto|].
  destruct Hin as [->|Hin]; [congruence|].
  destruct (IH Hin Hx) as [e' ->]. simpl. eauto.
Qed.

Lemma handle_nonhttp e :
  (forall c d, e <> HTTPError c d) -> handle_user_exception e = internal_error.
Proof. destruct e as [c d| | |]; intros H; [exfalso; eapply H; reflexivity | ..]; reflexivity. Qed.

(** Once a row with a recipe that is not a list is stored, GET /drinks fails. *)
Lemma listing_500 st d :
  In d (rows st) -> (forall l, recipe d <> JArr l) -> fst (app GET_drinks st) = internal_error.
Proof.
  intros Hin Hr. unfold app, dispatch, get_drinks.
  destruct (order_by_id_spec (rows st)) as [Hp _].
  assert (Hsh : short d = raise PyError).
  { unfold short. destruct (recipe d); try reflexivity. exfalso; eapply Hr; reflexivity. }
  destruct (map_exc_fails short _ d PyError (Permutation_in d (Permutation_sym Hp) Hin) Hsh)
    as [e He].
  pose proof (map_exc_codes (fun _ => False) short (order_by_id (rows st))
                (fun d => short_codes _ d)) as Hc.
  rewrite He in Hc |- *. simpl. apply handle_nonhttp. intros c d0 ->.
  exact (Hc c d0 eq_refl).
Qed.

(** X7: composition of PATCH and GET /drinks.  Once a PATCH that supplies a
    recipe has succeeded, GET /drinks answers 500 (internal server error):
    the patched row stores the recipe as an object, which [Drink.short()]
    (modelled from the spec) cannot iterate as a list of ingredients. *)
Theorem patched_recipe_breaks_listing (h : auth_header) (i : Z)
  (kvs : list (string * json)) (r : json) (st : store) (resp : response) (st' : store)
  (Hr : assoc "recipe" kvs = Some r)
  (Hpatch : app (PATCH_drink h i (JObj kvs)) st = (resp, st')) (H200 : status resp = 200) :
  fst (app GET_drinks st') = internal_error.
Proof.
  apply patch_cases in Hpatch as [[_ (scopes & d' & _ & _ & Hv & Hu & _)] | [Hn _]];
    [|contradiction].
  destruct (check_recipe_obj r (proj2 (validate_update_obj kvs Hv) r Hr)) as [rk Hrk].
  apply update_try_inv in Hu as (d & s & Hd & _ & Hd' & Hrows & _).
  apply find_drink_id in Hd as [_ Hin].
  apply (listing_500 st' d').
  - rewrite Hrows. apply (in_map (fun e => if id e =? id d then d' else e)) in Hin.
    rewrite Z.eqb_refl in Hin. exact Hin.
  - rewrite Hd'. unfold patched; simpl. rewrite Hr, Hrk. intros l; discriminate.
Qed.

Lemma patched_recipe_breaks_listing_witness :
  fst (app GET_drinks (snd (app (PATCH_drink (GoodToken ["patch:drinks"]) 1
                                 (JObj [("recipe", mocha)])) one_drink)))
  = internal_error.
Proof.
  apply (patched_recipe_breaks_listing (GoodToken ["patch:drinks"]) 1 [("recipe", mocha)] mocha
           one_drink
           (fst (app (PATCH_drink (GoodToken ["patch:drinks"]) 1 (JObj [("recipe", mocha)]))
                   one_drink))); reflexivity.
Defined.

Lemma patch_absent_fails h i b st :
  find_drink st i = None -> status (fst (app (PATCH_drink h i b) st)) <> 200.
Proof.
  intros Hn H200. destruct (app (PATCH_drink h i b) st) as [resp st'] eqn:E. simpl in H200.
  apply patch_cases in E as [[_ (scopes & d' & _ & _ & _ & Hu & _)] | [Hne _]]; [|contradiction].
  apply update_try_inv in Hu as (d & _ & Hd & _). congruence.
Qed.

Lemma delete_success h i st resp st' :
  app (DELETE_drink h i) st = (resp, st') -> status resp = 200 -> st' = delete_row st i.
Proof.
  unfold app, dispatch. intros Happ H200.
  destruct h as [| | | |scopes]; try (simpl in Happ; injection Happ as <- <-; discriminate).
  destruct (authorizes "delete:drinks" scopes) eqn:Ha;
    [rewrite requires_auth_granted in Happ by exact Ha
    |rewrite requires_auth_denied in Happ by exact Ha; injection Happ as <- <-; discriminate].
  unfold delete_drink in Happ. destruct (find_drink st i); injection Happ as <- <-;
    [reflexivity | discriminate].
Qed.

(** X8: composition of DELETE and PATCH.  After a successful DELETE
    /drinks/{id}, no PATCH of that id succeeds on the resulting table,
    whatever its token and body, and every row with another id is still
    stored. *)
Theorem delete_then_patch_fails (h : auth_header) (i : Z) (st : store)
  (resp : response) (st' : store)
  (Hdel : app (DELETE_drink h i) st = (resp, st')) (H200 : status resp = 200) :
  (forall h' b, status (fst (app (PATCH_drink h' i b) st')) <> 200) /\
  (forall e, In e (rows st) -> id e <> i -> In e (rows st')).
Proof.
  pose proof (delete_success h i st resp st' Hdel H200) as ->. split.
  - intros h' b. apply patch_absent_fails, find_drink_delete_row.
  - intros e Hin Hid. unfold delete_row; simpl. apply filter_In. split; [exact Hin|].
    apply Z.eqb_neq in Hid. rewrite Hid. reflexivity.
Qed.

Lemma delete_then_patch_fails_witness :
  status (fst (app (PATCH_drink (GoodToken ["patch:drinks"]) 1 (JObj []))
                 (snd (app (DELETE_drink (GoodToken ["delete:drinks"]) 1) one_drink)))) <> 200.
Proof.
  apply (proj1 (delete_then_patch_fails (GoodToken ["delete:drinks"]) 1 one_drink
                  (fst (app (DELETE_drink (GoodToken ["delete:drinks"]) 1) one_drink))
                  (snd (app (DELETE_drink (GoodToken ["delete:drinks"]) 1) one_drink))
                  eq_refl eq_refl)).
Defined.

Definition forbidden : response := mkResponse 403 (envelope 403 "forbidden").

(** X9: each protected route checks its own permission before anything else:
    a verified token whose scopes lack [get:drinks-detail], [post:drinks],
    [patch:drinks] or [delete:drinks] respectively is answered with the 403
    envelope, whatever the body, id and table, and the table is unchanged
    (the guard is modelled from the spec). *)
Theorem missing_scope_forbidden (scopes : list string) (st : store) :
  (authorizes "get:drinks-detail" scopes = false ->
     app (GET_drinks_detail (GoodToken scopes)) st = (forbidden, st)) /\
  (authorizes "post:drinks" scopes = false ->
     forall b, app (POST_drinks (GoodToken scopes) b) st = (forbidden, st)) /\
  (authorizes "patch:drinks" scopes = false ->
     forall i b, app (PATCH_drink (GoodToken scopes) i b) st = (forbidden, st)) /\
  (authorizes "delete:drinks" scopes = false ->
     forall i, app (DELETE_drink (GoodToken scopes) i) st = (forbidden, st)).
Proof.
  repeat split; intros Ha; intros; unfold app, dispatch;
    rewrite requires_auth_denied by exact Ha; reflexivity.
Qed.

Lemma missing_scope_forbidden_witness :
  app (POST_drinks (GoodToken ["get:drinks-detail"; "patch:drinks"; "delete:drinks"]) post_mocha)
      one_drink = (forbidden, one_drink).
Proof.
  apply (proj1 (proj2 (missing_scope_forbidden
                         ["get:drinks-detail"; "patch:drinks"; "delete:drinks"] one_drink)));
    reflexivity.
Defined.

(** ** The two listings *)

(** The first two fields of a JSON object, in order. *)
Definition head2 (j : json) : option ((string * json) * (string * json)) :=
  match j with JObj (a :: b :: _) => Some (a, b) | _ => None end.

Lemma map_exc_inr {A B} (f : A -> Exc B) (l : list A) (ys : list B) :
  map_exc f l = inr ys -> Forall2 (fun x y => f x = inr y) l ys.
Proof.
  revert ys. induction l as [|x rest IH]; simpl; intros ys H.
  - injection H as <-. constructor.
  - destruct (f x) as [e|y] eqn:Hx; simpl in H; [discriminate|].
    destruct (map_exc f rest) as [e|zs] eqn:Hr; simpl in H; [discriminate|].
    injection H as <-. constructor; auto.
Qed.

Lemma short_head2 d y : short d = inr y -> head2 y = head2 (long d).
Proof.
  unfold short. destruct (recipe d); simpl; try discriminate.
  destruct (map_exc short_ingredient l); simpl; [discriminate|].
  intros H; injection H as <-. reflexivity.
Qed.

(** X10: the public and the detail listing agree.  Whenever GET /drinks
    answers 200, its body is [{success: true, drinks}] and an authorized GET
    /drinks-detail on the same table answers 200 with a list of the same
    drinks in the same order: entry by entry, the same [id] and [title]. *)
Theorem listings_agree (scopes : list string) (st : store) (j : json)
  (Hauth : authorizes "get:drinks-detail" scopes = true)
  (Hget : fst (app GET_drinks st) = mkResponse 200 j) :
  exists ds ls,
    j = success_drinks ds /\
    app (GET_drinks_detail (GoodToken scopes)) st = (mkResponse 200 (success_drinks ls), st) /\
    map head2 ds = map head2 ls.
Proof.
  unfold app, dispatch, get_drinks in Hget. simpl in Hget.
  pose proof (map_exc_codes (fun _ => False) short (order_by_id (rows st))
                (fun d => short_codes _ d)) as Hc.
  destruct (map_exc short (order_by_id (rows st))) as [e|ys] eqn:Hm; simpl in Hget.
  - rewrite handle_nonhttp in Hget; [discriminate|].
    intros c d0 ->. exact (Hc c d0 eq_refl).
  - apply map_exc_inr in Hm.
    destruct (Nat.eqb (length ys) 0) eqn:Hl; simpl in Hget; [discriminate|].
    injection Hget as <-. exists ys, (map long (order_by_id (rows st))).
    split; [reflexivity|]. split.
    + apply detail_listing; [exact Hauth|]. intros E.
      rewrite E in Hm. simpl in Hm. inversion Hm; subst. discriminate.
    + clear Hl Hc. induction Hm as [|x y l' ys' Hxy Hrest IH]; simpl; [reflexivity|].
      rewrite (short_head2 x y Hxy), IH. reflexivity.
Qed.

Lemma listings_agree_witness :
  exists ds ls,
    success_drinks [JObj [("id", JNum 1); ("title", JStr "Mocha");
                          ("recipe", JArr [JObj [("name", JStr "mocha"); ("color", JStr "brown");
                                                 ("parts", JStr "pending")]])]]
    = success_drinks ds /\
    app (GET_drinks_detail (GoodToken ["get:drinks-detail"])) one_drink
    = (mkResponse 200 (success_drinks ls), one_drink) /\
    map head2 ds = map head2 ls.
Proof.
  apply (listings_agree ["get:drinks-detail"] one_drink); reflexivity.
Defined.

(** ** Bodies that are not JSON objects *)

Definition is_obj (j : json) : bool := match j with JObj _ => true | _ => false end.

(** X11: an authorized POST /drinks whose JSON body is not an object (a
    list, string, number, boolean or [null]) is answered 500: [body.get]
    raises an AttributeError outside any [try].  The table is unchanged. *)
Theorem post_non_object_body_500 (scopes : list string) (b : json) (st : store)
  (Hauth : authorizes "post:drinks" scopes = true) (Hb : is_obj b = false) :
  app (POST_drinks (GoodToken scopes) b) st = (internal_error, st).
Proof.
  unfold app, dispatch. rewrite requires_auth_granted by exact Hauth.
  destruct b; try discriminate; reflexivity.
Qed.

Lemma post_non_object_body_500_witness :
  app (POST_drinks (GoodToken ["post:drinks"]) (JArr [post_mocha])) one_drink
  = (internal_error, one_drink).
Proof. apply post_non_object_body_500; reflexivity. Defined.

Lemma supplied_non_obj b k : is_obj b = false -> supplied b k = None.
Proof. destruct b; simpl; congruence. Qed.

Lemma nodup_id_inj (l : list drink) (a b : drink) :
  NoDup (map id l) -> In a l -> In b l -> id a = id b -> a = b.
Proof.
  induction l as [|x rest IH]; simpl; [intros _ []|].
  intros Hnd Ha Hb E. inversion Hnd as [|? ? Hx Hnd']; subst.
  destruct Ha as [<-|Ha], Hb as [<-|Hb]; auto.
  - exfalso. apply Hx. rewrite E. apply in_map, Hb.
  - exfalso. apply Hx. rewrite <- E. apply in_map, Ha.
Qed.

Lemma map_replace_same (l : list drink) (d : drink) :
  NoDup (map id l) -> In d l -> map (fun e => if id e =? id d then d else e) l = l.
Proof.
  intros Hnd Hin. transitivity (map (fun e => e) l); [|apply map_id].
  apply map_ext_in. intros e He.
  destruct (Z.eqb_spec (id e) (id d)) as [E|E]; [|reflexivity].
  symmetry. apply (nodup_id_inj l); assumption.
Qed.

(** X12: a PATCH /drinks/{id} whose body is not a JSON object never changes
    a table whose ids are distinct (as the primary key makes them): the
    update can only succeed with neither field supplied, and then writes the
    row back as it was.  In particular an authorized PATCH of an existing id
    with a JSON list that contains neither the string "title" nor "recipe"
    is answered 200 with the stored drink. *)
Theorem patch_non_object_body_noop (h : auth_header) (i : Z) (b : json) (st : store)
  (Hb : is_obj b = false) (Hids : NoDup (map id (rows st))) :
  snd (app (PATCH_drink h i b) st) = st /\
  (forall scopes l d, h = GoodToken scopes -> authorizes "patch:drinks" scopes = true ->
     b = JArr l -> existsb (is_str "title") l = false -> existsb (is_str "recipe") l = false ->
     find_drink st i = Some d ->
     app (PATCH_drink h i b) st = (mkResponse 200 (success_drinks [long d]), st)).
Proof.
  assert (Hst : snd (app (PATCH_drink h i b) st) = st).
  { destruct (app (PATCH_drink h i b) st) as [resp st'] eqn:E. simpl.
    apply patch_cases in E as [[_ (scopes & d' & _ & _ & _ & Hu & _)] | [_ Hs]]; [|exact Hs].
    apply update_try_inv in Hu as (d & s & Hd & Hs & Hd' & Hrows & Hn).
    apply find_drink_id in Hd as [_ Hin].
    rewrite (supplied_non_obj b "title" Hb) in Hs. injection Hs as Hs.
    assert (Hpd : d' = d).
    { rewrite Hd'. unfold patched. rewrite (supplied_non_obj b "recipe" Hb), <- Hs.
      destruct d; reflexivity. }
    rewrite Hpd, map_replace_same in Hrows by assumption.
    destruct st', st; simpl in *; congruence. }
  split; [exact Hst|].
  intros scopes l d -> Hauth -> Ht Hr Hd.
  apply find_drink_id in Hd as Hdi. destruct Hdi as [Hid Hin].
  unfold app, dispatch. rewrite requires_auth_granted by exact Hauth.
  unfold update_drink, validate_update, update_try. simpl. rewrite Ht, Hr. simpl.
  rewrite Hd. simpl. rewrite String.eqb_refl. simpl.
  replace (mkDrink (id d) (title d) (recipe d)) with d by (destruct d; reflexivity).
  rewrite map_replace_same by assumption. destruct st; reflexivity.
Qed.

Lemma patch_non_object_body_noop_witness :
  app (PATCH_drink (GoodToken ["patch:drinks"]) 1 (JArr [JStr "x"])) one_drink
  = (mkResponse 200 (success_drinks [long (mkDrink 1 "Mocha" (JArr [mocha]))]), one_drink).
Proof.
  apply (proj2 (patch_non_object_body_noop (GoodToken ["patch:drinks"]) 1 (JArr [JStr "x"])
                  one_drink eq_refl ltac:(vm_compute; repeat constructor; intros []))
           ["patch:drinks"] [JStr "x"] (mkDrink 1 "Mocha" (JArr [mocha])));
    reflexivity.
Defined.
